(** * Safar Sathi: the real-time tracking hub (sockets/locationSocket.js)

    A shallow embedding of the socket handlers of the hub, of the cache
    utilities they call (config/redis.js) and of the SQL statements they send
    to the Catalog Store (tables of migrations/001_initial_schema.sql),
    followed by the properties of the hub stated in the specification.

    Conventions of the embedding.
    - An [async] handler is a computation in the monad [M]: it threads the
      connection, both stores and the list of emitted events, and it can
      throw.  The [try { .. } catch] of a handler is a [try_catch]; those
      of [redisUtils] are part of [redis_command].
    - [pool.query] can reject.  Whether the Catalog Store rejects the next
      statement is not decided by the hub, so it is read from an oracle
      carried by the state ([pg_rejects]); the same holds for the Session
      Store ([redis_rejects]), whose failures [redisUtils] swallows.
    - Handlers run one at a time: interleaving of the awaits of different
      connections is outside this model.
    - Numeric payload fields are JSON numbers or absent, as the event
      interface declares them: [option Q], [None] being [undefined] and a
      number being the rational its decimal text denotes.
    - Of the coercions of the store, the rounding of trips.distance_covered
      to its DECIMAL(10,2) column is modelled ([numeric_scale2]).  Those of
      vehicle_locations (precision of speed and accuracy, range of the
      coordinates) are not: its rows hold the parameters of the INSERT.  A
      parameter that the type of its column refuses (a count that is not an
      integer, a number beyond the precision) makes the statement fail: it
      is one of the rejections of the store.
    - Identifiers are the UUID texts of the schema.
    - Logging has no effect on the modelled state and is left out.
    - The distance function and the two roundings of the estimator are
      taken over the real numbers.  The source computes them in IEEE
      doubles with the Math functions of the engine, and that rounding is
      not modelled: the numbers of an ETA entry are the exact values, from
      which the entry of the program departs where rounding decides (a tie
      of Math.round, a haversine term pushed above 1 near antipodal points,
      where the program reports NaN). *)

From Stdlib Require Import Reals Lra Lia QArith Qabs Qreals ZArith.
From stdpp Require Import gmap strings list sorting.

(** ** JavaScript values and operators *)

(** [!!x] for a number-or-undefined value: [undefined] and [0] are falsy. *)
Definition truthy_num (x : option Q) : bool :=
  match x with
  | Some q => negb (Qeq_bool q 0)
  | None => false
  end.

(** [!!x] for a string-or-null value: [null], [undefined] and the empty
    string are falsy. *)
Definition truthy_str (x : option string) : bool :=
  match x with
  | Some s => negb (String.eqb s EmptyString)
  | None => false
  end.

(** [x || null] as a query parameter: a falsy number is sent as NULL. *)
Definition or_null (x : option Q) : option Q :=
  if truthy_num x then x else None.

(** [x || 0]. *)
Definition or_zero (x : option Q) : Q :=
  match x with
  | Some q => if truthy_num x then q else 0%Q
  | None => 0%Q
  end.

(** The text a template literal gives for an identifier that may be null. *)
Definition id_text (x : option string) : string := default "null" x.

(** ** Geo Distance Function

    Exact arithmetic over the real numbers stands for the double arithmetic
    of the source here (see the conventions above). *)

(** [Math.atan2 y x]. *)
Definition Math_atan2 (y x : R) : R :=
  if Rlt_dec 0 x then atan (y / x)
  else if Rlt_dec x 0 then
    (if Rle_dec 0 y then atan (y / x) + PI else atan (y / x) - PI)%R
  else if Rlt_dec 0 y then (PI / 2)%R
  else if Rlt_dec y 0 then (- (PI / 2))%R
  else 0%R.

(** [Math.round x]: the integer nearest to [x], halves going up. *)
Definition Math_round (x : R) : Z := Int_part (x + / 2).

(** The constant [a] of [calculateDistance]. *)
Definition haversine_a (lat1 lon1 lat2 lon2 : R) : R :=
  let dLat := ((lat2 - lat1) * PI / 180)%R in
  let dLon := ((lon2 - lon1) * PI / 180)%R in
  (sin (dLat / 2) * sin (dLat / 2) +
   cos (lat1 * PI / 180) * cos (lat2 * PI / 180) *
   sin (dLon / 2) * sin (dLon / 2))%R.

Definition calculateDistance (lat1 lon1 lat2 lon2 : R) : R :=
  let R_ := 6371%R in
  let a := haversine_a lat1 lon1 lat2 lon2 in
  let c := (2 * Math_atan2 (sqrt a) (sqrt (1 - a)))%R in
  (R_ * c)%R.

(** The two numbers the estimator reports for a distance. *)
Definition averageSpeed : R := 30%R.

Definition etaMinutes (distance : R) : Z :=
  Math_round ((distance / averageSpeed) * 60)%R.

Definition reportedDistance (distance : R) : R :=
  (IZR (Math_round (distance * 100)) / 100)%R.

(** Degrees to radians, and the haversine [hav t = (1 - cos t) / 2]. *)
Definition rad (deg : R) : R := (deg * PI / 180)%R.

Definition hav (theta : R) : R := ((1 - cos theta) / 2)%R.

(** ** Catalog Store: the rows the hub reads and writes *)

Inductive DriverStatus := DriverActive | DriverInactive | DriverSuspended.

Inductive TripStatus := Scheduled | Active | Completed | Cancelled.

#[global] Instance DriverStatus_eq_dec : EqDecision DriverStatus.
Proof. solve_decision. Defined.

#[global] Instance TripStatus_eq_dec : EqDecision TripStatus.
Proof. solve_decision. Defined.

(** A time stamp column: the instant the store or the hub read from its
    clock, or the text a client supplied. *)
Inductive Timestamp :=
  | At (t : Z)
  | ClientTime (text : string).

Record Driver := {
  d_user_id : string;
  d_status : DriverStatus;
  total_trips : option Z;
  d_updated_at : Z }.

Record Vehicle := {
  registration_number : string;
  assigned_driver_id : option string }.

Record Trip := {
  vehicle_id : string;
  driver_id : string;
  route_id : string;
  status : TripStatus;
  actual_start_time : option Z;
  actual_end_time : option Z;
  passenger_count : option Q;
  distance_covered : option Q;
  updated_at : Z }.

Record RouteStop := {
  rs_route_id : string;
  rs_bus_stop_id : string;
  stop_order : Z }.

Record BusStop := {
  bs_name : string;
  bs_longitude : Q;
  bs_latitude : Q }.

Record TripStop := {
  scheduled_arrival : option Z;
  actual_arrival : option Z;
  actual_departure : option Z;
  passengers_boarded : option Q;
  passengers_alighted : option Q }.

Record VehicleLocation := {
  vl_vehicle_id : option string;
  vl_trip_id : option string;
  vl_longitude : option Q;
  vl_latitude : option Q;
  vl_speed : option Q;
  vl_heading : option Q;
  vl_accuracy : option Q;
  vl_timestamp : Timestamp }.

(** Tables with a primary key are maps from the key; [route_stops] is read
    as a relation and [vehicle_locations] is only appended to. *)
Record Db := {
  drivers : gmap string Driver;
  vehicles : gmap string Vehicle;
  trips : gmap string Trip;
  route_stops : list RouteStop;
  bus_stops : gmap string BusStop;
  trip_stops : gmap (string * string) TripStop;
  vehicle_locations : list VehicleLocation }.

Definition with_drivers (ds : gmap string Driver) (db : Db) : Db :=
  {| drivers := ds; vehicles := vehicles db; trips := trips db;
     route_stops := route_stops db; bus_stops := bus_stops db;
     trip_stops := trip_stops db; vehicle_locations := vehicle_locations db |}.

Definition with_trips (ts : gmap string Trip) (db : Db) : Db :=
  {| drivers := drivers db; vehicles := vehicles db; trips := ts;
     route_stops := route_stops db; bus_stops := bus_stops db;
     trip_stops := trip_stops db; vehicle_locations := vehicle_locations db |}.

Definition with_trip_stops (ts : gmap (string * string) TripStop) (db : Db) : Db :=
  {| drivers := drivers db; vehicles := vehicles db; trips := trips db;
     route_stops := route_stops db; bus_stops := bus_stops db;
     trip_stops := ts; vehicle_locations := vehicle_locations db |}.

Definition with_vehicle_locations (ls : list VehicleLocation) (db : Db) : Db :=
  {| drivers := drivers db; vehicles := vehicles db; trips := trips db;
     route_stops := route_stops db; bus_stops := bus_stops db;
     trip_stops := trip_stops db; vehicle_locations := ls |}.

(** ** Session Store and outbound events *)

(** The snapshot of a fix, [cacheData] of [handleLocationUpdate]. *)
Record CacheData := {
  c_vehicleId : option string;
  c_tripId : option string;
  c_latitude : option Q;
  c_longitude : option Q;
  c_speed : option Q;
  c_heading : option Q;
  c_accuracy : option Q;
  c_timestamp : Timestamp;
  c_driverId : option string }.

(** An entry of an ETA batch.  A number that is NaN is [None]. *)
Record EtaUpdate := {
  e_stopId : string;
  e_stopName : string;
  e_eta : option Z;
  e_distance : option R }.

Inductive RedisValue :=
  | DriverSession (socketId : string) (vehicleId tripId : option string)
      (status : string) (connectedAt : Z)
  | CachedLocation (data : CacheData)
  | ActiveTrip (id : string) (trip : Trip) (startedAt : Z)
  | ETAEntry (eta : option Z) (calculatedAt : Z).

Inductive Payload :=
  | ErrorMessage (message : string)
  | DriverStatusInfo (driverId : string) (vehicleId registrationNumber tripId : option string)
      (tripStatus : option TripStatus) (status : DriverStatus)
  | LocationInfo (data : CacheData)
  | RouteVehicleInfo (routeId : string) (vehicleId : option string) (data : CacheData)
  | TripStarted (tripId : option string) (startTime : option Z)
  | TripEnded (tripId : option string) (endTime : option Z)
      (passengerCount distanceCovered : option Q)
  | TripStatusInfo (tripId vehicleId : option string) (status : TripStatus)
      (time : option Z)
  | PassengerCountInfo (vehicleId tripId : option string) (passengerCount : option Q)
      (stopId : option string)
  | EtaInfo (vehicleId tripId : option string) (etas : list EtaUpdate).

(** [socket.emit] answers the sender; [socket.to(room).emit] goes to the
    members of a room other than the sender. *)
Inductive Dest :=
  | ToSender
  | ToRoom (room : string).

Record Emit := {
  dest : Dest;
  event : string;
  payload : Payload }.

(** ** The connection and the state a handler runs in *)

Record Socket := {
  socket_id : string;
  userId : string;
  userRole : string;
  driverId : option string;
  vehicleId : option string;
  tripId : option string;
  rooms : list string;
  listeners : list string }.

Record State := {
  sock : Socket;
  pg : Db;
  redis : gmap string (Z * RedisValue);
  published : list (string * CacheData);
  outbox : list Emit;
  now : Z;
  pg_rejects : list bool;
  redis_rejects : list bool }.

Definition with_sock (s : Socket) (st : State) : State :=
  {| sock := s; pg := pg st; redis := redis st; published := published st;
     outbox := outbox st; now := now st; pg_rejects := pg_rejects st;
     redis_rejects := redis_rejects st |}.

Definition with_pg (db : Db) (rejects : list bool) (st : State) : State :=
  {| sock := sock st; pg := db; redis := redis st; published := published st;
     outbox := outbox st; now := now st; pg_rejects := rejects;
     redis_rejects := redis_rejects st |}.

Definition with_redis (kv : gmap string (Z * RedisValue))
    (pub : list (string * CacheData)) (rejects : list bool) (st : State) : State :=
  {| sock := sock st; pg := pg st; redis := kv; published := pub;
     outbox := outbox st; now := now st; pg_rejects := pg_rejects st;
     redis_rejects := rejects |}.

Definition with_outbox (out : list Emit) (st : State) : State :=
  {| sock := sock st; pg := pg st; redis := redis st; published := published st;
     outbox := out; now := now st; pg_rejects := pg_rejects st;
     redis_rejects := redis_rejects st |}.

(** ** The handler monad: state and exceptions *)

Inductive Result (A : Type) :=
  | Ok (a : A)
  | Throw.
Arguments Ok {A} a.
Arguments Throw {A}.

Definition M (A : Type) : Type := State → Result A * State.

Definition ret {A} (a : A) : M A := λ st, (Ok a, st).

Definition bind {A B} (m : M A) (k : A → M B) : M B :=
  λ st, match m st with
        | (Ok a, st') => k a st'
        | (Throw, st') => (Throw, st')
        end.

Notation "x <- m ;; k" := (bind m (λ x, k))
  (at level 100, m at next level, right associativity).
Notation "m ;; k" := (bind m (λ _, k))
  (at level 100, right associativity).

(** [try { body } catch (error) { handler }]: what [body] did before it
    threw stays done. *)
Definition try_catch (body handler : M unit) : M unit :=
  λ st, match body st with
        | (Ok _, st') => (Ok tt, st')
        | (Throw, st') => handler st'
        end.

(** The state a handler leaves behind.  A handler of the hub never lets an
    exception escape, so the result carries no information. *)
Definition run (m : M unit) (st : State) : State := (m st).2.

Definition get_socket : M Socket := λ st, (Ok (sock st), st).

Definition get_now : M Z := λ st, (Ok (now st), st).

(** [await pool.query(..)]: the statement is a function from the tables to
    the returned rows and the new tables.  A rejected statement changes
    nothing and throws. *)
Definition pool_query {A} (statement : Db → A * Db) : M A :=
  λ st, match pg_rejects st with
        | true :: rest => (Throw, with_pg (pg st) rest st)
        | _ =>
            (Ok (statement (pg st)).1,
             with_pg (statement (pg st)).2 (tail (pg_rejects st)) st)
        end.

(** A command sent to the Session Store inside the [try]/[catch] of a
    [redisUtils] function: on failure the error is logged and nothing else
    happens.  The result says whether the command went through. *)
Definition redis_command
    (f : gmap string (Z * RedisValue) * list (string * CacheData) →
         gmap string (Z * RedisValue) * list (string * CacheData)) : M bool :=
  λ st, match redis_rejects st with
        | true :: rest => (Ok false, with_redis (redis st) (published st) rest st)
        | _ =>
            let '(kv, pub) := f (redis st, published st) in
            (Ok true, with_redis kv pub (tail (redis_rejects st)) st)
        end.

Definition emit (d : Dest) (ev : string) (p : Payload) : M unit :=
  λ st, (Ok tt, with_outbox (outbox st ++ [{| dest := d; event := ev; payload := p |}]) st).

Definition socket_join (room : string) : M unit :=
  λ st, (Ok tt, with_sock
    {| socket_id := socket_id (sock st); userId := userId (sock st);
       userRole := userRole (sock st); driverId := driverId (sock st);
       vehicleId := vehicleId (sock st); tripId := tripId (sock st);
       rooms := if bool_decide (room ∈ rooms (sock st)) then rooms (sock st)
                else rooms (sock st) ++ [room];
       listeners := listeners (sock st) |} st).

Definition socket_leave (room : string) : M unit :=
  λ st, (Ok tt, with_sock
    {| socket_id := socket_id (sock st); userId := userId (sock st);
       userRole := userRole (sock st); driverId := driverId (sock st);
       vehicleId := vehicleId (sock st); tripId := tripId (sock st);
       rooms := filter (λ r, r ≠ room) (rooms (sock st));
       listeners := listeners (sock st) |} st).

(** [socket.on(name, ..)]. *)
Definition socket_on (name : string) : M unit :=
  λ st, (Ok tt, with_sock
    {| socket_id := socket_id (sock st); userId := userId (sock st);
       userRole := userRole (sock st); driverId := driverId (sock st);
       vehicleId := vehicleId (sock st); tripId := tripId (sock st);
       rooms := rooms (sock st);
       listeners := listeners (sock st) ++ [name] |} st).

(** The three bindings [handleDriverConnection] attaches to the socket. *)
Definition bind_driver (d v t : option string) : M unit :=
  λ st, (Ok tt, with_sock
    {| socket_id := socket_id (sock st); userId := userId (sock st);
       userRole := userRole (sock st); driverId := d;
       vehicleId := v; tripId := t;
       rooms := rooms (sock st);
       listeners := listeners (sock st) |} st).

(** [socket.tripId = null]. *)
Definition clear_tripId : M unit :=
  λ st, (Ok tt, with_sock
    {| socket_id := socket_id (sock st); userId := userId (sock st);
       userRole := userRole (sock st); driverId := driverId (sock st);
       vehicleId := vehicleId (sock st); tripId := None;
       rooms := rooms (sock st);
       listeners := listeners (sock st) |} st).

(** ** redisUtils (config/redis.js) *)

Definition setex (key : string) (ttl : Z) (v : RedisValue) : M bool :=
  redis_command (λ '(kv, pub), (<[key := (ttl, v)]> kv, pub)).

Definition del (key : string) : M bool :=
  redis_command (λ '(kv, pub), (delete key kv, pub)).

Definition publish (channel : string) (data : CacheData) : M bool :=
  redis_command (λ '(kv, pub), (kv, pub ++ [(channel, data)])).

Definition driver_session_key (driverId : option string) : string :=
  "driver:session:" +:+ id_text driverId.

Definition vehicle_location_key (vehicleId : option string) : string :=
  "vehicle:location:" +:+ id_text vehicleId.

Definition active_trip_key (tripId : option string) : string :=
  "trip:active:" +:+ id_text tripId.

Definition eta_key (routeId : option string) (stopId : string)
    (vehicleId : option string) : string :=
  "eta:" +:+ id_text routeId +:+ ":" +:+ stopId +:+ ":" +:+ id_text vehicleId.

Definition cacheVehicleLocation (vehicleId : option string) (locationData : CacheData) : M unit :=
  setex (vehicle_location_key vehicleId) 300 (CachedLocation locationData);; ret tt.

Definition cacheETA (routeId : option string) (stopId : string)
    (vehicleId : option string) (eta : option Z) (calculatedAt : Z) : M unit :=
  setex (eta_key routeId stopId vehicleId) 60 (ETAEntry eta calculatedAt);; ret tt.

Definition setActiveTripData (tripId : option string) (id : string) (trip : Trip)
    (startedAt : Z) : M unit :=
  setex (active_trip_key tripId) 86400 (ActiveTrip id trip startedAt);; ret tt.

Definition setDriverSession (driverId : option string) (session : RedisValue) : M unit :=
  setex (driver_session_key driverId) 86400 session;; ret tt.

Definition removeDriverSession (driverId : option string) : M unit :=
  del (driver_session_key driverId);; ret tt.

(** Both publications sit in one [try]: when the first fails the second is
    not attempted. *)
Definition publishLocationUpdate (vehicleId : option string) (locationData : CacheData) : M unit :=
  sent <- publish ("location:" +:+ id_text vehicleId) locationData;;
  if sent : bool then publish "location:all" locationData;; ret tt else ret tt.

(** ** The SQL statements of the hub *)

(** A row of [driverQuery]; columns of the two LEFT JOINs may be NULL. *)
Record DriverData := {
  dd_driver_id : string;
  dd_status : DriverStatus;
  dd_vehicle_id : option string;
  dd_registration_number : option string;
  dd_trip_id : option string;
  dd_route_id : option string;
  dd_trip_status : option TripStatus }.

Definition active_trips_of_vehicle (v : string) (db : Db) : list (string * Trip) :=
  filter (λ p, vehicle_id p.2 = v ∧ status p.2 = Active) (map_to_list (trips db)).

Definition vehicles_of_driver (d : string) (db : Db) : list (string * Vehicle) :=
  filter (λ p, assigned_driver_id p.2 = Some d) (map_to_list (vehicles db)).

Definition driver_vehicle_rows (d : string) (dr : Driver) (db : Db)
    (p : string * Vehicle) : list DriverData :=
  match active_trips_of_vehicle p.1 db with
  | [] => [ {| dd_driver_id := d; dd_status := d_status dr;
               dd_vehicle_id := Some p.1;
               dd_registration_number := Some (registration_number p.2);
               dd_trip_id := None; dd_route_id := None; dd_trip_status := None |} ]
  | ts => (λ t : string * Trip,
             {| dd_driver_id := d; dd_status := d_status dr;
                dd_vehicle_id := Some p.1;
                dd_registration_number := Some (registration_number p.2);
                dd_trip_id := Some t.1; dd_route_id := Some (route_id t.2);
                dd_trip_status := Some (status t.2) |}) <$> ts
  end.

Definition driver_rows (db : Db) (p : string * Driver) : list DriverData :=
  match vehicles_of_driver p.1 db with
  | [] => [ {| dd_driver_id := p.1; dd_status := d_status p.2;
               dd_vehicle_id := None; dd_registration_number := None;
               dd_trip_id := None; dd_route_id := None; dd_trip_status := None |} ]
  | vs => vs ≫= driver_vehicle_rows p.1 p.2 db
  end.

(** SELECT .. FROM drivers d LEFT JOIN vehicles v ON d.id = v.assigned_driver_id
    LEFT JOIN trips t ON v.id = t.vehicle_id AND t.status = 'active'
    WHERE d.user_id = $1.  The statement has no ORDER BY: the rows come in
    the order of the store. *)
Definition driverQuery (user : string) (db : Db) : list DriverData * Db :=
  (filter (λ p, d_user_id p.2 = user) (map_to_list (drivers db)) ≫= driver_rows db, db).

(** INSERT INTO vehicle_locations (..) VALUES (..) RETURNING id. *)
Definition locationQuery (row : VehicleLocation) (db : Db) : unit * Db :=
  (tt, with_vehicle_locations (vehicle_locations db ++ [row]) db).

(** SELECT route_id FROM trips WHERE id = $1. *)
Definition routeQuery (trip : option string) (db : Db) : list string * Db :=
  (match trip with
   | Some t => match trips db !! t with Some r => [route_id r] | None => [] end
   | None => []
   end, db).

(** The rows of [trips] that [WHERE id = $1 AND driver_id = $2] selects. *)
Definition owned_trip (trip driver : option string) (db : Db) : option (string * Trip) :=
  match trip, driver with
  | Some t, Some d =>
      match trips db !! t with
      | Some r => if decide (driver_id r = d) then Some (t, r) else None
      | None => None
      end
  | _, _ => None
  end.

(** The row an accepted start leaves: SET status = 'active',
    actual_start_time = NOW(); the schema's trigger stamps [updated_at] on
    every updated row. *)
Definition started_row (r : Trip) (t_now : Z) : Trip :=
  {| vehicle_id := vehicle_id r; driver_id := driver_id r;
     route_id := route_id r; status := Active;
     actual_start_time := Some t_now;
     actual_end_time := actual_end_time r;
     passenger_count := passenger_count r;
     distance_covered := distance_covered r;
     updated_at := t_now |}.

(** UPDATE trips SET status = 'active', actual_start_time = NOW()
    WHERE id = $1 AND driver_id = $2 RETURNING *. *)
Definition startQuery (trip driver : option string) (t_now : Z) (db : Db)
    : list (string * Trip) * Db :=
  match owned_trip trip driver db with
  | Some (t, r) =>
      ([(t, started_row r t_now)],
       with_trips (<[t := started_row r t_now]> (trips db)) db)
  | None => ([], db)
  end.

(** What a DECIMAL(p,2) column keeps of a number: the nearest multiple of
    0.01, ties going away from zero, held in hundredths. *)
Definition numeric_scale2 (q : Q) : Q :=
  (Z.sgn (Qnum q) *
   ((200 * Z.abs (Qnum q) + Z.pos (Qden q)) / (2 * Z.pos (Qden q))))%Z # 100.

(** The row an accepted end leaves: SET status = 'completed',
    actual_end_time = NOW(), passenger_count = $3, distance_covered = $4.
    [distance_covered] is DECIMAL(10,2) and keeps the parameter rounded;
    [passenger_count] is INTEGER, and a statement that is taken carries an
    integer, which is kept as it is. *)
Definition completed_row (r : Trip) (count distance : Q) (t_now : Z) : Trip :=
  {| vehicle_id := vehicle_id r; driver_id := driver_id r;
     route_id := route_id r; status := Completed;
     actual_start_time := actual_start_time r;
     actual_end_time := Some t_now;
     passenger_count := Some count;
     distance_covered := Some (numeric_scale2 distance);
     updated_at := t_now |}.

(** UPDATE trips SET status = 'completed', actual_end_time = NOW(),
    passenger_count = $3, distance_covered = $4
    WHERE id = $1 AND driver_id = $2 RETURNING *. *)
Definition endQuery (trip driver : option string) (count distance : Q) (t_now : Z)
    (db : Db) : list (string * Trip) * Db :=
  match owned_trip trip driver db with
  | Some (t, r) =>
      ([(t, completed_row r count distance t_now)],
       with_trips (<[t := completed_row r count distance t_now]> (trips db)) db)
  | None => ([], db)
  end.

(** UPDATE drivers SET total_trips = total_trips + 1 WHERE id = $1.
    [total_trips] is a nullable column: NULL + 1 is NULL. *)
Definition totalTripsQuery (driver : option string) (t_now : Z) (db : Db) : unit * Db :=
  match driver with
  | Some d =>
      (tt, with_drivers
             (alter (λ r, {| d_user_id := d_user_id r; d_status := d_status r;
                             total_trips := Z.succ <$> total_trips r;
                             d_updated_at := t_now |}) d (drivers db)) db)
  | None => (tt, db)
  end.

(** UPDATE drivers SET status = $1 WHERE id = $2, with $1 = 'inactive'. *)
Definition driverStatusQuery (st : DriverStatus) (driver : option string) (t_now : Z)
    (db : Db) : unit * Db :=
  match driver with
  | Some d =>
      (tt, with_drivers
             (alter (λ r, {| d_user_id := d_user_id r; d_status := st;
                             total_trips := total_trips r;
                             d_updated_at := t_now |}) d (drivers db)) db)
  | None => (tt, db)
  end.

(** UPDATE trips SET passenger_count = $1 WHERE id = $2. *)
Definition passengerCountQuery (count : option Q) (trip : option string) (t_now : Z)
    (db : Db) : unit * Db :=
  match trip with
  | Some t =>
      (tt, with_trips
             (alter (λ r, {| vehicle_id := vehicle_id r; driver_id := driver_id r;
                             route_id := route_id r; status := status r;
                             actual_start_time := actual_start_time r;
                             actual_end_time := actual_end_time r;
                             passenger_count := count;
                             distance_covered := distance_covered r;
                             updated_at := t_now |}) t (trips db)) db)
  | None => (tt, db)
  end.

(** INSERT INTO trip_stops (trip_id, bus_stop_id, actual_arrival, passengers_boarded)
    VALUES ($1, $2, NOW(), $3)
    ON CONFLICT (trip_id, bus_stop_id)
    DO UPDATE SET passengers_boarded = $3, actual_arrival = NOW().
    A fresh row takes the defaults of the other columns.  The handler sends
    the statement only with both keys present. *)
Definition tripStopQuery (trip stop : option string) (count : option Q) (t_now : Z)
    (db : Db) : unit * Db :=
  match trip, stop with
  | Some t, Some s =>
      let row :=
        match trip_stops db !! (t, s) with
        | Some old =>
            {| scheduled_arrival := scheduled_arrival old;
               actual_arrival := Some t_now;
               actual_departure := actual_departure old;
               passengers_boarded := count;
               passengers_alighted := passengers_alighted old |}
        | None =>
            {| scheduled_arrival := None; actual_arrival := Some t_now;
               actual_departure := None; passengers_boarded := count;
               passengers_alighted := Some 0%Q |}
        end in
      (tt, with_trip_stops (<[(t, s) := row]> (trip_stops db)) db)
  | _, _ => (tt, db)
  end.

(** A row of [stopsQuery]. *)
Record StopRow := {
  s_id : string;
  s_name : string;
  s_longitude : Q;
  s_latitude : Q;
  s_stop_order : Z }.

(** The rows of the inner SELECT before MAX: the stop orders, on any route,
    of the stops at which the trip has a recorded arrival. *)
Definition arrived_orders (t : string) (db : Db) : list Z :=
  rs2 ← route_stops db;
  match trip_stops db !! (t, rs_bus_stop_id rs2) with
  | Some ts => if actual_arrival ts is Some _ then [stop_order rs2] else []
  | None => []
  end.

(** MAX over a column: NULL on no rows. *)
Definition sql_max (l : list Z) : option Z :=
  match l with
  | [] => None
  | x :: l' => Some (foldr Z.max x l')
  end.

(** COALESCE(MAX(rs2.stop_order), 0). *)
Definition arrived_threshold (t : string) (db : Db) : Z :=
  default 0%Z (sql_max (arrived_orders t db)).

Definition order_le (a b : StopRow) : Prop := (s_stop_order a ≤ s_stop_order b)%Z.

#[global] Instance order_le_dec a b : Decision (order_le a b).
Proof. unfold order_le. apply _. Defined.

(** The joined rows that satisfy the WHERE clause. *)
Definition candidate_rows (t : string) (r : Trip) (db : Db) : list StopRow :=
  rs ← route_stops db;
  if decide (rs_route_id rs = route_id r ∧ (arrived_threshold t db < stop_order rs)%Z)
  then match bus_stops db !! rs_bus_stop_id rs with
       | Some bs => [ {| s_id := rs_bus_stop_id rs; s_name := bs_name bs;
                         s_longitude := bs_longitude bs;
                         s_latitude := bs_latitude bs;
                         s_stop_order := stop_order rs |} ]
       | None => []
       end
  else [].

(** SELECT .. FROM route_stops rs JOIN bus_stops bs .. JOIN trips t ..
    WHERE t.id = $1 AND rs.stop_order > (SELECT COALESCE(MAX(..), 0) ..)
    ORDER BY rs.stop_order LIMIT 5. *)
Definition stopsQuery (trip : option string) (db : Db) : list StopRow * Db :=
  (match trip with
   | Some t =>
       match trips db !! t with
       | Some r => take 5 (merge_sort order_le (candidate_rows t r db))
       | None => []
       end
   | None => []
   end, db).

(** ** Inbound event payloads *)

Record LocationData := {
  latitude : option Q;
  longitude : option Q;
  speed : option Q;
  heading : option Q;
  accuracy : option Q;
  timestamp : option string }.

Record TripData := {
  passengerCount : option Q;
  distanceCovered : option Q }.

Record CountData := {
  count : option Q;
  stopId : option string }.

(** ** ETA Estimator *)

(** [calculateDistance] at the call of the estimator: the current fix holds
    JavaScript numbers that may be [undefined], the stop holds doubles read
    from the store. *)
Definition distance_to_stop (currentLocation : option Q * option Q) (stop : StopRow)
    : option R :=
  match currentLocation with
  | (Some lat, Some lon) =>
      Some (calculateDistance (Q2R lat) (Q2R lon)
              (Q2R (s_latitude stop)) (Q2R (s_longitude stop)))
  | _ => None
  end.

(** What one turn of the loop pushes on [etaUpdates]. *)
Definition etaUpdate (currentLocation : option Q * option Q) (stop : StopRow) : EtaUpdate :=
  let distance := distance_to_stop currentLocation stop in
  {| e_stopId := s_id stop; e_stopName := s_name stop;
     e_eta := etaMinutes <$> distance;
     e_distance := reportedDistance <$> distance |}.

(** [for (const stop of stopsResult.rows) { .. }]. *)
Fixpoint eta_loop (socket : Socket) (currentLocation : option Q * option Q)
    (rows : list StopRow) (etaUpdates : list EtaUpdate) : M (list EtaUpdate) :=
  match rows with
  | [] => ret etaUpdates
  | stop :: rest =>
      let u := etaUpdate currentLocation stop in
      t <- get_now;;
      cacheETA (tripId socket) (s_id stop) (vehicleId socket) (e_eta u) t;;
      eta_loop socket currentLocation rest (etaUpdates ++ [u])
  end.

Definition calculateAndEmitETAs (currentLocation : option Q * option Q) : M unit :=
  try_catch
    (socket <- get_socket;;
     if negb (truthy_str (tripId socket)) then ret tt
     else
       stopsResult <- pool_query (stopsQuery (tripId socket));;
       if (0 <? length stopsResult)%nat then
         etaUpdates <- eta_loop socket currentLocation stopsResult [];;
         emit (ToRoom "passengers") "eta_update"
           (EtaInfo (vehicleId socket) (tripId socket) etaUpdates)
       else ret tt)
    (ret tt).

(** ** Location Ingestion Pipeline *)

Definition handleLocationUpdate (locationData : LocationData) : M unit :=
  try_catch
    (socket <- get_socket;;
     if negb (truthy_num (latitude locationData)) ||
        negb (truthy_num (longitude locationData))
     then emit ToSender "error" (ErrorMessage "Invalid location data")
     else if negb (truthy_str (vehicleId socket))
     then emit ToSender "error" (ErrorMessage "No vehicle assigned")
     else
       t <- get_now;;
       let stamp := if truthy_str (timestamp locationData)
                    then ClientTime (default EmptyString (timestamp locationData))
                    else At t in
       pool_query (locationQuery
         {| vl_vehicle_id := vehicleId socket; vl_trip_id := tripId socket;
            vl_longitude := longitude locationData;
            vl_latitude := latitude locationData;
            vl_speed := or_null (speed locationData);
            vl_heading := or_null (heading locationData);
            vl_accuracy := or_null (accuracy locationData);
            vl_timestamp := stamp |});;
       let cacheData :=
         {| c_vehicleId := vehicleId socket; c_tripId := tripId socket;
            c_latitude := latitude locationData;
            c_longitude := longitude locationData;
            c_speed := speed locationData; c_heading := heading locationData;
            c_accuracy := accuracy locationData; c_timestamp := stamp;
            c_driverId := driverId socket |} in
       cacheVehicleLocation (vehicleId socket) cacheData;;
       publishLocationUpdate (vehicleId socket) cacheData;;
       emit (ToRoom ("vehicle:" +:+ id_text (vehicleId socket))) "location_update"
         (LocationInfo cacheData);;
       (if truthy_str (tripId socket) then
          routeResult <- pool_query (routeQuery (tripId socket));;
          match routeResult with
          | routeId :: _ =>
              emit (ToRoom ("route:" +:+ routeId)) "route_vehicle_update"
                (RouteVehicleInfo routeId (vehicleId socket) cacheData)
          | [] => ret tt
          end
        else ret tt);;
       emit (ToRoom "admin") "vehicle_location_update" (LocationInfo cacheData);;
       calculateAndEmitETAs (latitude locationData, longitude locationData))
    (emit ToSender "error" (ErrorMessage "Failed to update location")).

(** ** Trip State Machine *)

Definition handleTripStart : M unit :=
  try_catch
    (socket <- get_socket;;
     if negb (truthy_str (tripId socket))
     then emit ToSender "error" (ErrorMessage "No active trip found")
     else
       t <- get_now;;
       result <- pool_query (startQuery (tripId socket) (driverId socket) t);;
       match result with
       | [] => emit ToSender "error" (ErrorMessage "Failed to start trip")
       | (id, trip) :: _ =>
           setActiveTripData (tripId socket) id trip t;;
           emit ToSender "trip_started"
             (TripStarted (tripId socket) (actual_start_time trip));;
           emit (ToRoom ("route:" +:+ route_id trip)) "trip_status_update"
             (TripStatusInfo (tripId socket) (vehicleId socket) Active
                (actual_start_time trip))
       end)
    (emit ToSender "error" (ErrorMessage "Failed to start trip")).

Definition handleTripEnd (tripData : TripData) : M unit :=
  try_catch
    (socket <- get_socket;;
     if negb (truthy_str (tripId socket))
     then emit ToSender "error" (ErrorMessage "No active trip found")
     else
       t <- get_now;;
       result <- pool_query
         (endQuery (tripId socket) (driverId socket)
            (or_zero (passengerCount tripData)) (or_zero (distanceCovered tripData)) t);;
       match result with
       | [] => emit ToSender "error" (ErrorMessage "Failed to end trip")
       | (id, trip) :: _ =>
           removeDriverSession (driverId socket);;
           pool_query (totalTripsQuery (driverId socket) t);;
           emit ToSender "trip_ended"
             (TripEnded (tripId socket) (actual_end_time trip)
                (passenger_count trip) (distance_covered trip));;
           emit (ToRoom ("route:" +:+ route_id trip)) "trip_status_update"
             (TripStatusInfo (tripId socket) (vehicleId socket) Completed
                (actual_end_time trip));;
           clear_tripId
       end)
    (emit ToSender "error" (ErrorMessage "Failed to end trip")).

(** ** Passenger-count Recorder *)

Definition handlePassengerCountUpdate (countData : CountData) : M unit :=
  try_catch
    (socket <- get_socket;;
     if negb (truthy_str (tripId socket))
     then emit ToSender "error" (ErrorMessage "No active trip found")
     else
       t <- get_now;;
       pool_query (passengerCountQuery (count countData) (tripId socket) t);;
       (if truthy_str (stopId countData)
        then pool_query (tripStopQuery (tripId socket) (stopId countData)
                           (count countData) t)
        else ret tt);;
       emit (ToRoom ("vehicle:" +:+ id_text (vehicleId socket))) "passenger_count_update"
         (PassengerCountInfo (vehicleId socket) (tripId socket) (count countData)
            (stopId countData)))
    (emit ToSender "error" (ErrorMessage "Failed to update passenger count")).

(** ** Driver Session Manager and the observer flow *)

Definition handleDriverConnection : M unit :=
  try_catch
    (socket <- get_socket;;
     result <- pool_query (driverQuery (userId socket));;
     match result with
     | [] => emit ToSender "error" (ErrorMessage "Driver profile not found")
     | driverData :: _ =>
         bind_driver (Some (dd_driver_id driverData)) (dd_vehicle_id driverData)
           (dd_trip_id driverData);;
         (if truthy_str (dd_vehicle_id driverData)
          then socket_join ("vehicle:" +:+ id_text (dd_vehicle_id driverData))
          else ret tt);;
         t <- get_now;;
         setDriverSession (Some (dd_driver_id driverData))
           (DriverSession (socket_id socket) (dd_vehicle_id driverData)
              (dd_trip_id driverData) "connected" t);;
         emit ToSender "driver_status"
           (DriverStatusInfo (dd_driver_id driverData) (dd_vehicle_id driverData)
              (dd_registration_number driverData) (dd_trip_id driverData)
              (dd_trip_status driverData) (dd_status driverData));;
         socket_on "location_update";;
         socket_on "start_trip";;
         socket_on "end_trip";;
         socket_on "passenger_count_update"
     end)
    (emit ToSender "error" (ErrorMessage "Connection failed")).

Definition handlePassengerConnection : M unit :=
  socket <- get_socket;;
  socket_join "passengers";;
  (if String.eqb (userRole socket) "admin" then socket_join "admin" else ret tt);;
  socket_on "subscribe_route";;
  socket_on "subscribe_vehicle";;
  socket_on "unsubscribe_route";;
  socket_on "unsubscribe_vehicle".

(** ** Disconnection Reconciler *)

Definition handleDisconnection : M unit :=
  try_catch
    (socket <- get_socket;;
     if String.eqb (userRole socket) "driver" && truthy_str (driverId socket) then
       removeDriverSession (driverId socket);;
       t <- get_now;;
       pool_query (driverStatusQuery DriverInactive (driverId socket) t)
     else ret tt)
    (ret tt).

(** ** Connection Gateway *)

(** The callback of [io.on('connection', ..)], run on a socket that passed
    [authenticateSocket]. *)
Definition setupLocationSocket : M unit :=
  socket <- get_socket;;
  (if String.eqb (userRole socket) "driver" then handleDriverConnection else ret tt);;
  (if String.eqb (userRole socket) "passenger" || String.eqb (userRole socket) "admin"
   then handlePassengerConnection else ret tt);;
  socket_on "disconnect".

(** The events a client can send once connected. *)
Inductive Incoming :=
  | location_update (locationData : LocationData)
  | start_trip
  | end_trip (tripData : TripData)
  | passenger_count_update (countData : CountData)
  | subscribe_route (routeId : string)
  | subscribe_vehicle (vehicleId : string)
  | unsubscribe_route (routeId : string)
  | unsubscribe_vehicle (vehicleId : string)
  | disconnect.

Definition event_name (e : Incoming) : string :=
  match e with
  | location_update _ => "location_update"
  | start_trip => "start_trip"
  | end_trip _ => "end_trip"
  | passenger_count_update _ => "passenger_count_update"
  | subscribe_route _ => "subscribe_route"
  | subscribe_vehicle _ => "subscribe_vehicle"
  | unsubscribe_route _ => "unsubscribe_route"
  | unsubscribe_vehicle _ => "unsubscribe_vehicle"
  | disconnect => "disconnect"
  end.

(** The listener the hub registers under each event name. *)
Definition listener (e : Incoming) : M unit :=
  match e with
  | location_update locationData => handleLocationUpdate locationData
  | start_trip => handleTripStart
  | end_trip tripData => handleTripEnd tripData
  | passenger_count_update countData => handlePassengerCountUpdate countData
  | subscribe_route routeId => socket_join ("route:" +:+ routeId)
  | subscribe_vehicle vehicleId => socket_join ("vehicle:" +:+ vehicleId)
  | unsubscribe_route routeId => socket_leave ("route:" +:+ routeId)
  | unsubscribe_vehicle vehicleId => socket_leave ("vehicle:" +:+ vehicleId)
  | disconnect => handleDisconnection
  end.

(** Delivery of an event to the socket: an event nobody listens to is
    dropped. *)
Definition receive (e : Incoming) : M unit :=
  socket <- get_socket;;
  if bool_decide (event_name e ∈ listeners socket) then listener e else ret tt.

(** Events that report a failure to the sender. *)
Definition error_reply (message : string) : Emit :=
  {| dest := ToSender; event := "error"; payload := ErrorMessage message |}.

Definition InvalidLocation : Emit := error_reply "Invalid location data".
Definition NoVehicleAssigned : Emit := error_reply "No vehicle assigned".
Definition NoActiveTrip : Emit := error_reply "No active trip found".
Definition StartFailed : Emit := error_reply "Failed to start trip".
Definition EndFailed : Emit := error_reply "Failed to end trip".
Definition ProfileNotFound : Emit := error_reply "Driver profile not found".


(** ** Vocabulary of the properties *)

(** What a handler added to the outbox. *)
Definition emitted (before after : State) : list Emit :=
  drop (length (outbox before)) (outbox after).

Definition to_sender (d : Dest) : bool :=
  match d with
  | ToSender => true
  | ToRoom _ => false
  end.

(** The handler answered the sender with the event [name]: the
    acknowledgement [trip_started] or [trip_ended] of a command that went
    through. *)
Definition acknowledged (name : string) (before after : State) : bool :=
  existsb (λ e, to_sender (dest e) && String.eqb (event e) name) (emitted before after).

(** The store accepts the next [n] statements sent to it. *)
Fixpoint accepts (n : nat) (rejects : list bool) : bool :=
  match n, rejects with
  | O, _ => true
  | S _, [] => true
  | S n', b :: rest => negb b && accepts n' rest
  end.

(** The row [handleLocationUpdate] inserts and the snapshot it caches. *)
Definition fix_row (st : State) (locationData : LocationData) : VehicleLocation :=
  {| vl_vehicle_id := vehicleId (sock st); vl_trip_id := tripId (sock st);
     vl_longitude := longitude locationData;
     vl_latitude := latitude locationData;
     vl_speed := or_null (speed locationData);
     vl_heading := or_null (heading locationData);
     vl_accuracy := or_null (accuracy locationData);
     vl_timestamp := if truthy_str (timestamp locationData)
                     then ClientTime (default EmptyString (timestamp locationData))
                     else At (now st) |}.

Definition fix_snapshot (st : State) (locationData : LocationData) : CacheData :=
  {| c_vehicleId := vehicleId (sock st); c_tripId := tripId (sock st);
     c_latitude := latitude locationData;
     c_longitude := longitude locationData;
     c_speed := speed locationData; c_heading := heading locationData;
     c_accuracy := accuracy locationData;
     c_timestamp := if truthy_str (timestamp locationData)
                    then ClientTime (default EmptyString (timestamp locationData))
                    else At (now st);
     c_driverId := driverId (sock st) |}.

(** The four events only a driver connection listens to. *)
Definition driver_event (e : Incoming) : Prop :=
  match e with
  | location_update _ | start_trip | end_trip _ | passenger_count_update _ => True
  | _ => False
  end.

(** ** A small fleet, for the examples

    Driver d1 (user u1) drives vehicle v1 on route r1, whose stops s1, s2,
    s3 have orders 1, 2, 3; trip t1 on v1 is driven by d1 and trip t2 by
    another driver d2. *)

Definition example_trip (driver : string) (s : TripStatus) : Trip :=
  {| vehicle_id := "v1"; driver_id := driver; route_id := "r1"; status := s;
     actual_start_time := Some 40%Z;
     actual_end_time := if s is Completed then Some 90%Z else None;
     passenger_count := Some 0%Q; distance_covered := None; updated_at := 90 |}.

Definition example_db (s : TripStatus) : Db :=
  {| drivers :=
       {[ "d1" := {| d_user_id := "u1"; d_status := DriverActive;
                     total_trips := Some 7%Z; d_updated_at := 0 |};
          "d2" := {| d_user_id := "u2"; d_status := DriverInactive;
                     total_trips := Some 0%Z; d_updated_at := 0 |} ]};
     vehicles :=
       {[ "v1" := {| registration_number := "UK07-1234";
                     assigned_driver_id := Some "d1" |} ]};
     trips := {[ "t1" := example_trip "d1" s; "t2" := example_trip "d2" Completed ]};
     route_stops :=
       [ {| rs_route_id := "r1"; rs_bus_stop_id := "s2"; stop_order := 2 |};
         {| rs_route_id := "r1"; rs_bus_stop_id := "s1"; stop_order := 1 |};
         {| rs_route_id := "r1"; rs_bus_stop_id := "s3"; stop_order := 3 |} ];
     bus_stops :=
       {[ "s1" := {| bs_name := "City Center"; bs_longitude := 780322 # 10000;
                     bs_latitude := 303165 # 10000 |};
          "s2" := {| bs_name := "Clock Tower"; bs_longitude := 780348 # 10000;
                     bs_latitude := 303204 # 10000 |};
          "s3" := {| bs_name := "ISBT"; bs_longitude := 780423 # 10000;
                     bs_latitude := 303254 # 10000 |} ]};
     trip_stops := ∅;
     vehicle_locations := [] |}.

(** The connection of driver d1 once [handleDriverConnection] has bound it
    to vehicle v1 and to the trip [trip]. *)
Definition example_socket (trip : option string) : Socket :=
  {| socket_id := "sock-1"; userId := "u1"; userRole := "driver";
     driverId := Some "d1"; vehicleId := Some "v1"; tripId := trip;
     rooms := ["vehicle:v1"];
     listeners := ["disconnect"; "location_update"; "start_trip"; "end_trip";
                   "passenger_count_update"] |}.

Definition example_state (trip : option string) (s : TripStatus) : State :=
  {| sock := example_socket trip; pg := example_db s;
     redis := {[ "driver:session:d1" :=
                   (86400%Z, DriverSession "sock-1" (Some "v1") trip "connected" 10) ]};
     published := []; outbox := []; now := 100;
     pg_rejects := []; redis_rejects := [] |}.

(** The same connection when the profile of d1 has no vehicle. *)
Definition unassigned_state : State :=
  {| sock := {| socket_id := "sock-1"; userId := "u1"; userRole := "driver";
                driverId := Some "d1"; vehicleId := None; tripId := None;
                rooms := [];
                listeners := ["disconnect"; "location_update"; "start_trip";
                              "end_trip"; "passenger_count_update"] |};
     pg := example_db Scheduled; redis := ∅;
     published := []; outbox := []; now := 100;
     pg_rejects := []; redis_rejects := [] |}.

Definition example_end : TripData :=
  {| passengerCount := Some (12 # 1); distanceCovered := Some (84 # 10) |}.

Definition example_fix : LocationData :=
  {| latitude := Some (3030 # 100); longitude := Some (7803 # 100);
     speed := Some 0%Q; heading := Some (90 # 1); accuracy := None;
     timestamp := None |}.

(** ** Sentences of the specification, as they are worded *)

(** "Starting a trip not owned by the calling driver, or already
    active/completed, always yields StartFailed and leaves trip status
    unchanged." *)
Definition start_fails_unless_startable (st : State) : Prop :=
  ∀ t r,
    tripId (sock st) = Some t → t ≠ EmptyString → trips (pg st) !! t = Some r →
    driverId (sock st) ≠ Some (driver_id r) ∨ status r = Active ∨ status r = Completed →
    (startQuery (tripId (sock st)) (driverId (sock st)) (now st) (pg st)).1 = [] ∧
    emitted st (run handleTripStart st) = [StartFailed] ∧
    status <$> trips (pg (run handleTripStart st)) !! t = Some (status r) ∧
    actual_start_time <$> trips (pg (run handleTripStart st)) !! t
      = Some (actual_start_time r).

(** "Ending a trip successfully deletes the driver's session; a subsequent
    location_update from the same connection must again fail with
    NoVehicleAssigned." *)
Definition end_trip_unbinds_vehicle (st : State) (tripData : TripData)
    (locationData : LocationData) : Prop :=
  let st1 := run (handleTripEnd tripData) st in
  acknowledged "trip_ended" st st1 = true →
  redis st1 !! driver_session_key (driverId (sock st)) = None ∧
  emitted st1 (run (handleLocationUpdate locationData) st1) = [NoVehicleAssigned] ∧
  pg (run (handleLocationUpdate locationData) st1) = pg st1 ∧
  redis (run (handleLocationUpdate locationData) st1) = redis st1.

(** "A fix from a connection with no bound vehicle always yields
    NoVehicleAssigned and performs no store writes." *)
Definition unbound_fix_yields_no_vehicle (st : State) (locationData : LocationData) : Prop :=
  truthy_str (vehicleId (sock st)) = false →
  emitted st (run (handleLocationUpdate locationData) st) = [NoVehicleAssigned] ∧
  pg (run (handleLocationUpdate locationData) st) = pg st ∧
  redis (run (handleLocationUpdate locationData) st) = redis st.

(** "passenger_count and distance_covered are set to the supplied values
    (defaulting to 0 when omitted)" by a successful end_trip. *)
Definition end_trip_stores_supplied_values (st : State) (tripData : TripData) : Prop :=
  let st1 := run (handleTripEnd tripData) st in
  acknowledged "trip_ended" st st1 = true →
  ∃ t r',
    tripId (sock st) = Some t ∧ trips (pg st1) !! t = Some r' ∧
    (∃ c, passenger_count r' = Some c ∧
          (c == default 0 (passengerCount tripData))%Q) ∧
    (∃ d, distance_covered r' = Some d ∧
          (d == default 0 (distanceCovered tripData))%Q).

(** ** Further examples *)

(** The socket of driver d1 as [setupLocationSocket] leaves it on the
    example fleet with trip t1 active. *)
Definition example_socket_connected : Socket :=
  {| socket_id := "sock-1"; userId := "u1"; userRole := "driver";
     driverId := Some "d1"; vehicleId := Some "v1"; tripId := Some "t1";
     rooms := ["vehicle:v1"];
     listeners := ["location_update"; "start_trip"; "end_trip";
                   "passenger_count_update"; "disconnect"] |}.

(** A passenger connection on the example fleet, in the observers' group
    and with the listeners of [handlePassengerConnection] registered. *)
Definition example_observer : State :=
  {| sock := {| socket_id := "sock-5"; userId := "u5"; userRole := "passenger";
                driverId := None; vehicleId := None; tripId := None;
                rooms := ["passengers"];
                listeners := ["subscribe_route"; "subscribe_vehicle";
                              "unsubscribe_route"; "unsubscribe_vehicle";
                              "disconnect"] |};
     pg := example_db Active; redis := ∅; published := []; outbox := [];
     now := 100; pg_rejects := []; redis_rejects := [] |}.

(** ** Realtime API (app.js) *)

(** [redis.get] inside the [try]/[catch] of a getter of [redisUtils]: on
    failure the error is logged and the getter answers null. *)
Definition redis_get (key : string) : M (option RedisValue) :=
  λ st, match redis_rejects st with
        | true :: rest => (Ok None, with_redis (redis st) (published st) rest st)
        | _ => (Ok (snd <$> redis st !! key),
                with_redis (redis st) (published st) (tail (redis_rejects st)) st)
        end.

Definition getCachedVehicleLocation (vehicleId : option string) : M (option RedisValue) :=
  redis_get (vehicle_location_key vehicleId).

(** What a realtime endpoint answers: the cached value under [location]
    with status 200, or a status and an error message.  The [vehicleId]
    field of the body, [Number(req.params.id)], is not represented. *)
Inductive Response :=
  | LocationFound (location : RedisValue)
  | ErrorStatus (status : Z) (error : string).

(** [try { body } catch (error) { handler }] around a request handler. *)
Definition try_catch_response (body handler : M Response) : M Response :=
  λ st, match body st with
        | (Ok r, st') => (Ok r, st')
        | (Throw, st') => handler st'
        end.

(** GET /api/realtime/vehicles/:id/location. *)
Definition realtimeVehicleLocation (id : string) : M Response :=
  try_catch_response
    (cached <- getCachedVehicleLocation (Some id);;
     match cached with
     | None => ret (ErrorStatus 404 "No cached location for vehicle")
     | Some location => ret (LocationFound location)
     end)
    (ret (ErrorStatus 500 "Failed to fetch realtime location")).
(** * Properties *)

(** ** Running a handler *)

#[local] Arguments startQuery : simpl never.
#[local] Arguments endQuery : simpl never.
#[local] Arguments totalTripsQuery : simpl never.
#[local] Arguments driverStatusQuery : simpl never.
#[local] Arguments passengerCountQuery : simpl never.
#[local] Arguments tripStopQuery : simpl never.
#[local] Arguments stopsQuery : simpl never.
#[local] Arguments routeQuery : simpl never.
#[local] Arguments locationQuery : simpl never.
#[local] Arguments driverQuery : simpl never.

Ltac run_handler :=
  unfold run, try_catch, removeDriverSession, setActiveTripData,
    setDriverSession, cacheVehicleLocation, publishLocationUpdate, cacheETA,
    setex, del, publish, redis_command, pool_query, clear_tripId, bind_driver,
    socket_on, socket_join, emit, get_socket, get_now, bind, ret;
  cbv beta.

(** Projections of an updated state, leaving the SQL statements folded. *)
Ltac state_simpl :=
  repeat (cbv beta;
          cbn [fst snd sock pg redis published outbox now pg_rejects
               redis_rejects with_sock with_pg with_redis with_outbox
               tail hd negb andb orb]).

Lemma truthy_str_Some t : t ≠ EmptyString → truthy_str (Some t) = true.
Proof.
  intros H. simpl. destruct (String.eqb_spec t EmptyString); [contradiction|reflexivity].
Qed.

Lemma truthy_str_inv x : truthy_str x = true → ∃ t, x = Some t ∧ t ≠ EmptyString.
Proof.
  destruct x as [t|]; [|discriminate]. simpl.
  destruct (String.eqb_spec t EmptyString); [discriminate|]. eauto.
Qed.

Lemma emitted_app st st' l : outbox st' = outbox st ++ l → emitted st st' = l.
Proof. intros H. unfold emitted. by rewrite H, drop_app_length. Qed.

Lemma emitted_nil st st' : outbox st' = outbox st → emitted st st' = [].
Proof. intros H. apply emitted_app. by rewrite app_nil_r. Qed.

(** ** Trip State Machine *)

Lemma owned_trip_foreign st t :
  tripId (sock st) = Some t →
  (∀ r, trips (pg st) !! t = Some r → driverId (sock st) ≠ Some (driver_id r)) →
  owned_trip (tripId (sock st)) (driverId (sock st)) (pg st) = None.
Proof.
  intros Ht Hr. unfold owned_trip. rewrite Ht.
  destruct (driverId (sock st)) as [d|]; [|reflexivity].
  destruct (trips (pg st) !! t) as [r|] eqn:E; [|reflexivity].
  case_decide as Hd; [|reflexivity].
  exfalso. apply (Hr r eq_refl). congruence.
Qed.

Lemma startQuery_owned trip driver t_now db t r :
  owned_trip trip driver db = Some (t, r) →
  startQuery trip driver t_now db =
  ([(t, started_row r t_now)], with_trips (<[t := started_row r t_now]> (trips db)) db).
Proof. intros H. unfold startQuery. by rewrite H. Qed.

(** The match of a start has no condition on the status: the bound trip of
    the calling driver is started, or started again, whatever its status
    was, once the Catalog Store takes the statement. *)
Lemma start_trip_owned_succeeds st t r :
  tripId (sock st) = Some t → t ≠ EmptyString →
  trips (pg st) !! t = Some r →
  driverId (sock st) = Some (driver_id r) →
  hd false (pg_rejects st) = false →
  trips (pg (run handleTripStart st)) !! t = Some (started_row r (now st)) ∧
  acknowledged "trip_started" st (run handleTripStart st) = true.
Proof.
  intros Ht Hne Hr Hd Hp.
  assert (Ho : owned_trip (tripId (sock st)) (driverId (sock st)) (pg st) = Some (t, r)).
  { unfold owned_trip. rewrite Ht, Hd, Hr. by rewrite decide_True. }
  unfold acknowledged, emitted, handleTripStart. run_handler.
  rewrite Ht in *. rewrite (truthy_str_Some t Hne). state_simpl.
  destruct (pg_rejects st) as [|[] rej]; [|done|]; state_simpl.
  all: rewrite (startQuery_owned _ _ _ _ _ _ Ho); state_simpl.
  all: destruct (redis_rejects st) as [|[] ?]; state_simpl.
  all: rewrite <- ?app_assoc, ?drop_app_length.
  all: cbn [trips with_trips]; split; [by rewrite lookup_insert_eq|reflexivity].
Qed.

(** C1, as amended.  A start_trip on a connection whose bound trip is not a
    trip of the calling driver (another driver's, or no row at all) matches
    zero rows, is answered with StartFailed and leaves both stores as they
    were, whether or not the Catalog Store accepts the statement. *)
Theorem start_trip_foreign_fails st t :
  tripId (sock st) = Some t → t ≠ EmptyString →
  (∀ r, trips (pg st) !! t = Some r → driverId (sock st) ≠ Some (driver_id r)) →
  (startQuery (tripId (sock st)) (driverId (sock st)) (now st) (pg st)).1 = [] ∧
  emitted st (run handleTripStart st) = [StartFailed] ∧
  pg (run handleTripStart st) = pg st ∧
  redis (run handleTripStart st) = redis st.
Proof.
  intros Ht Hne Hr.
  assert (Hq : startQuery (tripId (sock st)) (driverId (sock st)) (now st) (pg st)
               = ([], pg st)).
  { unfold startQuery. by rewrite (owned_trip_foreign st t Ht Hr). }
  split; [by rewrite Hq|].
  assert (outbox (run handleTripStart st) = outbox st ++ [StartFailed] ∧
          pg (run handleTripStart st) = pg st ∧
          redis (run handleTripStart st) = redis st) as (Ho & Hp & Hk).
  { unfold handleTripStart. run_handler.
    rewrite Ht in *. rewrite (truthy_str_Some t Hne). cbn [negb]. cbv beta.
    destruct (pg_rejects st) as [|[] ?]; rewrite ?Hq; simpl; auto. }
  auto using emitted_app.
Qed.

(** C1 as worded fails: trip t1 is owned by the bound driver d1 and already
    completed, yet the conditional update matches its row and starts it
    again. *)
Lemma start_restarts_completed_trip :
  let st := example_state (Some "t1") Completed in
  ¬ start_fails_unless_startable st ∧
  (driver_id <$> trips (pg st) !! "t1") = driverId (sock st) ∧
  status <$> trips (pg st) !! "t1" = Some Completed ∧
  status <$> trips (pg (run handleTripStart st)) !! "t1" = Some Active ∧
  actual_start_time <$> trips (pg st) !! "t1" = Some (Some 40%Z) ∧
  actual_start_time <$> trips (pg (run handleTripStart st)) !! "t1" = Some (Some 100%Z) ∧
  event <$> emitted st (run handleTripStart st) = ["trip_started"; "trip_status_update"].
Proof.
  cbv zeta. split; [|by vm_compute].
  intros H.
  destruct (H "t1" (example_trip "d1" Completed)) as (Hrows & _);
    [reflexivity | done | reflexivity | right; right; reflexivity |].
  vm_compute in Hrows. discriminate.
Qed.

(** [start_trip_foreign_fails] on the connection of d1 bound to t2, a trip
    of driver d2. *)
Lemma start_trip_foreign_fails_witness :
  let st := example_state (Some "t2") Active in
  tripId (sock st) = Some "t2" ∧ "t2" ≠ EmptyString ∧
  (∀ r, trips (pg st) !! "t2" = Some r → driverId (sock st) ≠ Some (driver_id r)) ∧
  emitted st (run handleTripStart st) = [StartFailed].
Proof.
  cbv zeta.
  assert (Hr : ∀ r, trips (pg (example_state (Some "t2") Active)) !! "t2" = Some r →
               driverId (sock (example_state (Some "t2") Active)) ≠ Some (driver_id r)).
  { intros r Hr. vm_compute in Hr. injection Hr as <-. discriminate. }
  split; [reflexivity|]. split; [done|]. split; [exact Hr|].
  exact (proj1 (proj2 (start_trip_foreign_fails (example_state (Some "t2") Active) "t2"
                          eq_refl ltac:(done) Hr))).
Defined.

Lemma endQuery_owned trip driver c d t_now db t r :
  owned_trip trip driver db = Some (t, r) →
  endQuery trip driver c d t_now db =
  ([(t, completed_row r c d t_now)],
   with_trips (<[t := completed_row r c d t_now]> (trips db)) db).
Proof. intros H. unfold endQuery. by rewrite H. Qed.

Lemma endQuery_foreign trip driver c d t_now db :
  owned_trip trip driver db = None → endQuery trip driver c d t_now db = ([], db).
Proof. intros H. unfold endQuery. by rewrite H. Qed.

Lemma owned_trip_inv trip driver db t r :
  owned_trip trip driver db = Some (t, r) →
  trip = Some t ∧ driver = Some (driver_id r) ∧ trips db !! t = Some r.
Proof.
  unfold owned_trip. destruct trip as [t'|], driver as [d|]; try discriminate.
  destruct (trips db !! t') as [r'|] eqn:E; [|discriminate].
  case_decide; [|discriminate]. intros [= -> ->]. by subst.
Qed.

(** What an acknowledged end_trip has done. *)
Lemma handleTripEnd_acknowledged st tripData :
  let st1 := run (handleTripEnd tripData) st in
  acknowledged "trip_ended" st st1 = true →
  ∃ t r,
    let r' := completed_row r (or_zero (passengerCount tripData))
                (or_zero (distanceCovered tripData)) (now st) in
    t ≠ EmptyString ∧
    owned_trip (tripId (sock st)) (driverId (sock st)) (pg st) = Some (t, r) ∧
    accepts 2 (pg_rejects st) = true ∧
    pg st1 = (totalTripsQuery (driverId (sock st)) (now st)
                (with_trips (<[t := r']> (trips (pg st))) (pg st))).2 ∧
    redis st1 = (if hd false (redis_rejects st) then redis st
                 else delete (driver_session_key (driverId (sock st))) (redis st)) ∧
    emitted st st1 =
      [ {| dest := ToSender; event := "trip_ended";
           payload := TripEnded (tripId (sock st)) (actual_end_time r')
                        (passenger_count r') (distance_covered r') |};
        {| dest := ToRoom ("route:" +:+ route_id r); event := "trip_status_update";
           payload := TripStatusInfo (tripId (sock st)) (vehicleId (sock st))
                        Completed (actual_end_time r') |} ] ∧
    sock st1 = sock (run clear_tripId st).
Proof.
  cbv zeta. unfold acknowledged, emitted, handleTripEnd. run_handler.
  destruct (truthy_str (tripId (sock st))) eqn:Ht; state_simpl.
  2:{ rewrite drop_app_length. discriminate. }
  apply truthy_str_inv in Ht as (t & Ht & Hne).
  destruct (owned_trip (tripId (sock st)) (driverId (sock st)) (pg st))
    as [[t' r]|] eqn:Ho.
  2:{ rewrite (endQuery_foreign _ _ _ _ _ _ Ho).
      destruct (pg_rejects st) as [|[] ?]; state_simpl;
        rewrite drop_app_length; discriminate. }
  rewrite (endQuery_owned _ _ _ _ _ _ _ _ Ho).
  pose proof (owned_trip_inv _ _ _ _ _ Ho) as (Ht' & Hd & Hr).
  assert (t' = t) as -> by congruence.
  destruct (pg_rejects st) as [|[] rej] eqn:Hrej; state_simpl.
  2:{ rewrite drop_app_length. discriminate. }
  all: destruct (redis_rejects st) as [|[] ?] eqn:Hrr; state_simpl.
  all: try rewrite Hrej; try (destruct rej as [|[] ?]); state_simpl.
  all: rewrite <- ?app_assoc, ?drop_app_length.
  all: try discriminate.
  all: intros _; exists t, r; cbn [accepts negb andb hd].
  all: repeat split; try done.
Qed.

Lemma or_zero_default x : (or_zero x == default 0 x)%Q.
Proof.
  destruct x as [q|]; simpl; [|reflexivity].
  destruct (Qeq_bool q 0) eqn:E; simpl; [|reflexivity].
  symmetry. by apply Qeq_bool_iff.
Qed.

Lemma totalTripsQuery_trips driver t_now db :
  trips (totalTripsQuery driver t_now db).2 = trips db.
Proof. unfold totalTripsQuery. by destruct driver. Qed.

Lemma totalTripsQuery_counter d t_now db dr :
  drivers db !! d = Some dr →
  ∃ dr', drivers (totalTripsQuery (Some d) t_now db).2 !! d = Some dr' ∧
         total_trips dr' = (λ n, n + 1)%Z <$> total_trips dr.
Proof.
  intros H. unfold totalTripsQuery. cbn [snd drivers with_drivers].
  rewrite lookup_alter_eq, H. cbn. eexists. split; [reflexivity|].
  cbn. destruct (total_trips dr); cbn; f_equal; lia.
Qed.

(** *** Rounding to the scale of a DECIMAL(p,2) column *)

(** A number with at most two decimals is kept as it is. *)
Lemma numeric_scale2_exact q (h : Z) :
  (q == h # 100)%Q → (numeric_scale2 q == q)%Q.
Proof.
  destruct q as [n d]. unfold numeric_scale2, Qeq. cbn [Qnum Qden].
  intros H.
  assert (Hd : (0 < Z.pos d)%Z) by lia.
  assert (Habs : (Z.abs n * 100 = Z.abs h * Z.pos d)%Z).
  { rewrite <- (Z.abs_eq 100), <- (Z.abs_eq (Z.pos d)), <- !Z.abs_mul by lia.
    by rewrite H. }
  assert (Hq : ((200 * Z.abs n + Z.pos d) / (2 * Z.pos d) = Z.abs h)%Z).
  { replace (200 * Z.abs n + Z.pos d)%Z
      with (Z.abs h * (2 * Z.pos d) + Z.pos d)%Z by lia.
    rewrite Z.div_add_l by lia. rewrite Z.div_small by lia. lia. }
  rewrite Hq.
  destruct (Z.sgn_spec n) as [[Hn ->]|[[Hn ->]|[Hn ->]]],
           (Z.abs_spec h) as [[Hh ->]|[Hh ->]]; nia.
Qed.

(** Any other number moves by half a hundredth at most. *)
Lemma numeric_scale2_error q :
  (Qabs (numeric_scale2 q - q) <= 1 # 200)%Q.
Proof.
  destruct q as [n d]. apply Qabs_Qle_condition.
  unfold numeric_scale2, Qle, Qminus, Qplus, Qopp. cbn [Qnum Qden].
  assert (Hd : (0 < Z.pos d)%Z) by lia.
  pose proof (Z.div_mod (200 * Z.abs n + Z.pos d) (2 * Z.pos d) ltac:(lia)) as Hdm.
  pose proof (Z.mod_pos_bound (200 * Z.abs n + Z.pos d) (2 * Z.pos d) ltac:(lia)) as Hm.
  set (m := ((200 * Z.abs n + Z.pos d) / (2 * Z.pos d))%Z) in *.
  set (k := ((200 * Z.abs n + Z.pos d) mod (2 * Z.pos d))%Z) in *.
  rewrite !Pos2Z.inj_mul.
  destruct (Z.sgn_spec n) as [[Hn ->]|[[Hn ->]|[Hn ->]]];
    rewrite ?Z.abs_eq in Hdm by lia; rewrite ?Z.abs_neq in Hdm by lia; nia.
Qed.

(** C4, as amended.  An end_trip that went through (the driver got
    trip_ended) on the bound trip, owned by the calling driver, leaves the
    trip completed with actual_end_time set to the time of the command and
    passenger_count set to what the payload supplied; distance_covered is
    set to the supplied distance rounded to the two decimals of its column,
    which is the supplied distance itself when it has no more than two
    decimals and is never more than 0.005 away from it; 0 stands in for an
    omitted field; the driver's total_trips is one more than it was; and a
    trip_status_update with status completed went to the route group of the
    trip. *)
Theorem end_trip_completes st tripData :
  let st1 := run (handleTripEnd tripData) st in
  acknowledged "trip_ended" st st1 = true →
  ∃ t d r r',
    tripId (sock st) = Some t ∧ driverId (sock st) = Some d ∧
    trips (pg st) !! t = Some r ∧ driver_id r = d ∧
    trips (pg st1) !! t = Some r' ∧
    status r' = Completed ∧
    actual_end_time r' = Some (now st) ∧
    passenger_count r' = Some (or_zero (passengerCount tripData)) ∧
    distance_covered r' = Some (numeric_scale2 (or_zero (distanceCovered tripData))) ∧
    (or_zero (passengerCount tripData) == default 0 (passengerCount tripData))%Q ∧
    (or_zero (distanceCovered tripData) == default 0 (distanceCovered tripData))%Q ∧
    (∀ h : Z, (default 0 (distanceCovered tripData) == h # 100)%Q →
       (numeric_scale2 (or_zero (distanceCovered tripData))
          == default 0 (distanceCovered tripData))%Q) ∧
    (Qabs (numeric_scale2 (or_zero (distanceCovered tripData))
           - default 0 (distanceCovered tripData)) <= 1 # 200)%Q ∧
    (∀ dr, drivers (pg st) !! d = Some dr →
       ∃ dr', drivers (pg st1) !! d = Some dr' ∧
              total_trips dr' = (λ n, n + 1)%Z <$> total_trips dr) ∧
    {| dest := ToRoom ("route:" +:+ route_id r); event := "trip_status_update";
       payload := TripStatusInfo (Some t) (vehicleId (sock st)) Completed
                    (Some (now st)) |} ∈ emitted st st1.
Proof.
  cbv zeta. intros Hack.
  destruct (handleTripEnd_acknowledged st tripData Hack)
    as (t & r & Hne & Ho & Hacc & Hpg & Hkv & Hout & Hsock).
  destruct (owned_trip_inv _ _ _ _ _ Ho) as (Ht & Hd & Hr).
  exists t, (driver_id r), r, (completed_row r (or_zero (passengerCount tripData))
                   (or_zero (distanceCovered tripData)) (now st)).
  pose proof (or_zero_default (distanceCovered tripData)) as Hdc.
  do 4 (split; [done|]).
  split.
  { rewrite Hpg, totalTripsQuery_trips. cbn [trips with_trips].
    by rewrite lookup_insert_eq. }
  do 4 (split; [reflexivity|]).
  split; [apply or_zero_default|]. split; [exact Hdc|].
  split.
  { intros h Hh. rewrite <- Hdc. apply (numeric_scale2_exact _ h).
    by rewrite Hdc. }
  split.
  { rewrite <- Hdc. apply numeric_scale2_error. }
  split.
  - intros dr Hdr. rewrite Hpg, Hd.
    apply totalTripsQuery_counter. exact Hdr.
  - rewrite Hout, Ht. cbn [actual_end_time completed_row]. set_solver.
Qed.

(** C4 as worded fails: d1 ends its trip t1 with a distance of 8.456 km, the
    end goes through, and the trip holds 8.46. *)
Lemma end_trip_rounds_distance :
  let st := example_state (Some "t1") Active in
  let tripData := {| passengerCount := Some (12 # 1);
                     distanceCovered := Some (8456 # 1000) |} in
  ¬ end_trip_stores_supplied_values st tripData ∧
  acknowledged "trip_ended" st (run (handleTripEnd tripData) st) = true ∧
  distance_covered <$> trips (pg (run (handleTripEnd tripData) st)) !! "t1"
    = Some (Some (846 # 100)).
Proof.
  cbv zeta. split; [|by vm_compute].
  intros H. destruct (H eq_refl) as (t & r' & Ht & Hr' & _ & d & Hd & Hq).
  injection Ht as <-. vm_compute in Hr'. injection Hr' as <-.
  cbn in Hd. injection Hd as <-. vm_compute in Hq. discriminate Hq.
Qed.

(** [end_trip_completes] on the scenario of the specification: d1 ends
    its active trip t1 with 12 passengers and 8.4 km, and the trip holds
    8.40. *)
Lemma end_trip_completes_witness :
  let st := example_state (Some "t1") Active in
  let tripData := {| passengerCount := Some (12 # 1); distanceCovered := Some (84 # 10) |} in
  acknowledged "trip_ended" st (run (handleTripEnd tripData) st) = true ∧
  ∃ r', trips (pg (run (handleTripEnd tripData) st)) !! "t1" = Some r' ∧
        status r' = Completed ∧
        passenger_count r' = Some (12 # 1) ∧ distance_covered r' = Some (840 # 100).
Proof.
  cbv zeta. split; [reflexivity|].
  destruct (end_trip_completes (example_state (Some "t1") Active)
              {| passengerCount := Some (12 # 1); distanceCovered := Some (84 # 10) |}
              eq_refl)
    as (t & d & r & r' & Ht & _ & _ & _ & Hr' & Hs & _ & Hc & Hd & _).
  injection Ht as <-. exists r'. auto.
Defined.

(** ** Location Ingestion Pipeline *)

Lemma calculateAndEmitETAs_no_trip currentLocation st :
  truthy_str (tripId (sock st)) = false →
  calculateAndEmitETAs currentLocation st = (Ok tt, st).
Proof.
  intros H. unfold calculateAndEmitETAs, try_catch, bind, get_socket, ret.
  by rewrite H.
Qed.

(** A valid fix from a connection with a vehicle and no trip. *)
Lemma handleLocationUpdate_no_trip st locationData :
  truthy_num (latitude locationData) = true →
  truthy_num (longitude locationData) = true →
  truthy_str (vehicleId (sock st)) = true →
  truthy_str (tripId (sock st)) = false →
  hd false (pg_rejects st) = false →
  let st' := run (handleLocationUpdate locationData) st in
  pg st' = with_vehicle_locations
             (vehicle_locations (pg st) ++ [fix_row st locationData]) (pg st) ∧
  emitted st st' =
    [ {| dest := ToRoom ("vehicle:" +:+ id_text (vehicleId (sock st)));
         event := "location_update";
         payload := LocationInfo (fix_snapshot st locationData) |};
      {| dest := ToRoom "admin"; event := "vehicle_location_update";
         payload := LocationInfo (fix_snapshot st locationData) |} ].
Proof.
  intros Hlat Hlon Hv Ht Hpg. cbv zeta.
  unfold emitted, handleLocationUpdate. run_handler.
  rewrite Hlat, Hlon, Hv, Ht. state_simpl.
  assert (Hq : match pg_rejects st with true :: _ => False | _ => True end).
  { destruct (pg_rejects st) as [|[] ?]; [done|discriminate|done]. }
  destruct (pg_rejects st) as [|[] rej]; [|done|]; state_simpl.
  all: destruct (redis_rejects st) as [|[] [|[] [|[] ?]]]; state_simpl.
  all: rewrite calculateAndEmitETAs_no_trip by (state_simpl; exact Ht).
  all: state_simpl; rewrite <- ?app_assoc, ?drop_app_length; split; reflexivity.
Qed.

(** C2, as amended.  An end_trip that went through deletes the
    DriverSession of the driver (when the Session Store takes the command)
    and clears the trip binding of the connection, and only that: the
    vehicle stays bound, so a later location_update with a valid fix on the
    same connection is not answered with NoVehicleAssigned; once the
    Catalog Store takes the insert, the fix is recorded with no trip id and
    goes to the vehicle group and to the admin group, with no route
    fan-out and no ETA batch. *)
Theorem end_trip_clears_trip_only st tripData :
  let st1 := run (handleTripEnd tripData) st in
  acknowledged "trip_ended" st st1 = true →
  (hd false (redis_rejects st) = false →
   redis st1 !! driver_session_key (driverId (sock st)) = None) ∧
  tripId (sock st1) = None ∧
  vehicleId (sock st1) = vehicleId (sock st) ∧
  ∀ locationData,
    truthy_num (latitude locationData) = true →
    truthy_num (longitude locationData) = true →
    truthy_str (vehicleId (sock st)) = true →
    hd false (pg_rejects st1) = false →
    let st2 := run (handleLocationUpdate locationData) st1 in
    vehicle_locations (pg st2) =
      vehicle_locations (pg st1) ++ [fix_row st1 locationData] ∧
    vl_trip_id (fix_row st1 locationData) = None ∧
    emitted st1 st2 =
      [ {| dest := ToRoom ("vehicle:" +:+ id_text (vehicleId (sock st)));
           event := "location_update";
           payload := LocationInfo (fix_snapshot st1 locationData) |};
        {| dest := ToRoom "admin"; event := "vehicle_location_update";
           payload := LocationInfo (fix_snapshot st1 locationData) |} ].
Proof.
  cbv zeta. intros Hack.
  destruct (handleTripEnd_acknowledged st tripData Hack)
    as (t & r & Hne & Ho & Hacc & Hpg & Hkv & Hout & Hsock).
  assert (Htrip : tripId (sock (run (handleTripEnd tripData) st)) = None)
    by (by rewrite Hsock).
  assert (Hveh : vehicleId (sock (run (handleTripEnd tripData) st)) = vehicleId (sock st))
    by (by rewrite Hsock).
  split; [|split; [exact Htrip|split; [exact Hveh|]]].
  - intros Hr. rewrite Hkv, Hr. apply lookup_delete_eq.
  - intros locationData Hlat Hlon Hv Hp.
    destruct (handleLocationUpdate_no_trip (run (handleTripEnd tripData) st)
                locationData Hlat Hlon) as (Hpg2 & Hout2); auto.
    + by rewrite Hveh.
    + by rewrite Htrip.
    + rewrite Hpg2, Hout2, Hveh. cbn [vehicle_locations with_vehicle_locations].
      repeat split. unfold fix_row. cbn [vl_trip_id]. exact Htrip.
Qed.

(** C2 as worded fails: after d1 has ended t1, a valid fix on the same
    connection is accepted, since vehicle v1 is still bound. *)
Lemma end_trip_keeps_vehicle_bound :
  let st := example_state (Some "t1") Active in
  let st1 := run (handleTripEnd example_end) st in
  let st2 := run (handleLocationUpdate example_fix) st1 in
  ¬ end_trip_unbinds_vehicle st example_end example_fix ∧
  acknowledged "trip_ended" st st1 = true ∧
  vehicleId (sock st1) = Some "v1" ∧
  event <$> emitted st1 st2 = ["location_update"; "vehicle_location_update"] ∧
  length (vehicle_locations (pg st1)) = 0%nat ∧
  length (vehicle_locations (pg st2)) = 1%nat.
Proof.
  cbv zeta. split; [|by vm_compute].
  intros H. destruct (H eq_refl) as (_ & Hout & _).
  vm_compute in Hout. discriminate.
Qed.

(** [end_trip_clears_trip_only] on the same scenario. *)
Lemma end_trip_clears_trip_only_witness :
  let st := example_state (Some "t1") Active in
  let st1 := run (handleTripEnd example_end) st in
  acknowledged "trip_ended" st st1 = true ∧
  redis st1 !! "driver:session:d1" = None ∧
  tripId (sock st1) = None ∧
  vehicleId (sock st1) = Some "v1" ∧
  vehicle_locations (pg (run (handleLocationUpdate example_fix) st1)) =
    [fix_row st1 example_fix].
Proof.
  cbv zeta.
  destruct (end_trip_clears_trip_only (example_state (Some "t1") Active) example_end
              eq_refl) as (Hkv & Ht & Hv & Hfix).
  split; [reflexivity|]. split; [exact (Hkv eq_refl)|].
  split; [exact Ht|]. split; [exact Hv|].
  exact (proj1 (Hfix example_fix eq_refl eq_refl eq_refl eq_refl)).
Defined.

(** C3, as amended.  A location_update whose latitude or longitude is
    missing or falsy is answered with InvalidLocation, and one with both
    coordinates truthy on a connection with no bound vehicle is answered
    with NoVehicleAssigned (the coordinates are checked first).  In both
    cases the answer is all that happens: nothing is sent to the Catalog
    Store or to the Session Store, nothing is published or fanned out, no
    ETA is computed. *)
Theorem invalid_fix_rejected st locationData :
  (truthy_num (latitude locationData) = false ∨
   truthy_num (longitude locationData) = false →
   run (handleLocationUpdate locationData) st
     = with_outbox (outbox st ++ [InvalidLocation]) st) ∧
  (truthy_num (latitude locationData) = true →
   truthy_num (longitude locationData) = true →
   truthy_str (vehicleId (sock st)) = false →
   run (handleLocationUpdate locationData) st
     = with_outbox (outbox st ++ [NoVehicleAssigned]) st).
Proof.
  unfold handleLocationUpdate. run_handler. split.
  - intros [H|H]; rewrite H; [|rewrite orb_true_r]; reflexivity.
  - intros -> -> ->. reflexivity.
Qed.

(** [invalid_fix_rejected] on a fix without latitude and on a valid fix
    from a connection without vehicle. *)
Lemma invalid_fix_rejected_witness :
  let no_latitude :=
    {| latitude := None; longitude := Some (7803 # 100); speed := None;
       heading := None; accuracy := None; timestamp := None |} in
  emitted (example_state (Some "t1") Active)
    (run (handleLocationUpdate no_latitude) (example_state (Some "t1") Active))
    = [InvalidLocation] ∧
  pg (run (handleLocationUpdate no_latitude) (example_state (Some "t1") Active))
    = example_db Active ∧
  emitted unassigned_state (run (handleLocationUpdate example_fix) unassigned_state)
    = [NoVehicleAssigned] ∧
  pg (run (handleLocationUpdate example_fix) unassigned_state) = pg unassigned_state.
Proof.
  cbv zeta.
  pose proof (proj1 (invalid_fix_rejected (example_state (Some "t1") Active)
            {| latitude := None; longitude := Some (7803 # 100); speed := None;
               heading := None; accuracy := None; timestamp := None |})
          (or_introl eq_refl)) as H1.
  pose proof (proj2 (invalid_fix_rejected unassigned_state example_fix)
                eq_refl eq_refl eq_refl) as H2.
  rewrite H1, H2. repeat split.
Defined.

(** C3 as worded fails where its two cases overlap: a fix without
    latitude on a connection without vehicle is answered with
    InvalidLocation, not with NoVehicleAssigned. *)
Lemma unbound_fix_without_latitude :
  let no_latitude :=
    {| latitude := None; longitude := Some (7803 # 100); speed := None;
       heading := None; accuracy := None; timestamp := None |} in
  ¬ unbound_fix_yields_no_vehicle unassigned_state no_latitude ∧
  vehicleId (sock unassigned_state) = None ∧
  emitted unassigned_state (run (handleLocationUpdate no_latitude) unassigned_state)
    = [InvalidLocation].
Proof.
  cbv zeta. split; [|by vm_compute].
  intros H. destruct (H eq_refl) as (Hout & _).
  vm_compute in Hout. discriminate.
Qed.

(** ** ETA Estimator *)

#[local] Instance order_le_total : Total order_le.
Proof. intros a b. unfold order_le. lia. Qed.

#[local] Instance order_le_trans : Transitive order_le.
Proof. intros a b c. unfold order_le. lia. Qed.

Lemma Sorted_take_prefix {A} (R : relation A) `{!Transitive R} (n : nat) (l : list A) :
  Sorted R l → Sorted R (take n l).
Proof.
  intros H. apply StronglySorted_Sorted.
  apply Sorted_StronglySorted in H; [|done].
  rewrite <- (take_drop n l) in H.
  by apply StronglySorted_app_1_l in H.
Qed.

Lemma sql_max_upper (l : list Z) (x : Z) :
  x ∈ l → ∃ m, sql_max l = Some m ∧ (x ≤ m)%Z.
Proof.
  destruct l as [|y l]; [by intros ?%elem_of_nil|].
  intros Hx. exists (foldr Z.max y l). split; [reflexivity|].
  revert Hx. induction l as [|z l IH]; cbn [foldr].
  - intros ->%list_elem_of_singleton. lia.
  - rewrite !elem_of_cons. intros [->|[->|Hx]].
    + assert (y ≤ foldr Z.max y l)%Z by (apply IH; left). lia.
    + lia.
    + assert (x ≤ foldr Z.max y l)%Z by (apply IH; by right). lia.
Qed.

Lemma arrived_orders_elem t db (rs2 : RouteStop) ts :
  rs2 ∈ route_stops db →
  trip_stops db !! (t, rs_bus_stop_id rs2) = Some ts →
  is_Some (actual_arrival ts) →
  stop_order rs2 ∈ arrived_orders t db.
Proof.
  intros Hin Hts [a Ha]. unfold arrived_orders.
  apply list_elem_of_bind. exists rs2. split; [|done].
  rewrite Hts, Ha. by left.
Qed.

Lemma arrived_threshold_upper t db (rs2 : RouteStop) ts :
  rs2 ∈ route_stops db →
  trip_stops db !! (t, rs_bus_stop_id rs2) = Some ts →
  is_Some (actual_arrival ts) →
  (stop_order rs2 ≤ arrived_threshold t db)%Z.
Proof.
  intros Hin Hts Ha. unfold arrived_threshold.
  destruct (sql_max_upper _ _ (arrived_orders_elem t db rs2 ts Hin Hts Ha))
    as (m & -> & Hm).
  exact Hm.
Qed.

Lemma candidate_rows_elem t r db (row : StopRow) :
  row ∈ candidate_rows t r db →
  ∃ rs bs, rs ∈ route_stops db ∧ rs_route_id rs = route_id r ∧
           bus_stops db !! rs_bus_stop_id rs = Some bs ∧
           s_id row = rs_bus_stop_id rs ∧ s_stop_order row = stop_order rs ∧
           (arrived_threshold t db < s_stop_order row)%Z.
Proof.
  unfold candidate_rows. intros (rs & Hrow & Hrs)%list_elem_of_bind.
  destruct (decide _) as [Hc|Hc]; [|by apply elem_of_nil in Hrow].
  destruct (bus_stops db !! rs_bus_stop_id rs) as [bs|] eqn:Hbs;
    [|by apply elem_of_nil in Hrow].
  apply list_elem_of_singleton in Hrow as ->.
  exists rs, bs. destruct Hc as [Hc1 Hc2]. cbn. repeat split; done.
Qed.

Lemma stopsQuery_elem t db (row : StopRow) :
  row ∈ (stopsQuery (Some t) db).1 →
  ∃ r, trips db !! t = Some r ∧ row ∈ candidate_rows t r db.
Proof.
  unfold stopsQuery. cbn [fst].
  destruct (trips db !! t) as [r|]; [|by intros ?%elem_of_nil].
  intros Hin. exists r. split; [done|].
  apply elem_of_take in Hin as (i & Hi & _).
  apply list_elem_of_lookup_2 in Hi.
  by rewrite merge_sort_Permutation in Hi.
Qed.

Lemma stopsQuery_length trip db : (length (stopsQuery trip db).1 ≤ 5)%nat.
Proof.
  unfold stopsQuery. cbn [fst].
  destruct trip as [t|]; [|cbn; lia].
  destruct (trips db !! t); [|cbn; lia].
  rewrite length_take. lia.
Qed.

Lemma stopsQuery_sorted trip db : Sorted order_le (stopsQuery trip db).1.
Proof.
  unfold stopsQuery. cbn [fst].
  destruct trip as [t|]; [|constructor].
  destruct (trips db !! t); [|constructor].
  apply Sorted_take_prefix; [apply _|]. apply Sorted_merge_sort. apply _.
Qed.

(** The loop pushes one entry per row, in the order of the rows, and
    touches nothing but the ETA keys of the Session Store. *)
Lemma eta_loop_spec socket currentLocation rows :
  ∀ etaUpdates st, ∃ st',
    eta_loop socket currentLocation rows etaUpdates st
      = (Ok (etaUpdates ++ (etaUpdate currentLocation <$> rows)), st') ∧
    sock st' = sock st ∧ pg st' = pg st ∧ outbox st' = outbox st ∧
    published st' = published st ∧ pg_rejects st' = pg_rejects st ∧
    now st' = now st ∧
    ∀ k, (∀ s, k ≠ eta_key (tripId socket) s (vehicleId socket)) →
         redis st' !! k = redis st !! k.
Proof.
  induction rows as [|stop rest IH]; intros etaUpdates st.
  - exists st. cbn. by rewrite app_nil_r.
  - cbn [eta_loop fmap list_fmap]. unfold cacheETA. run_handler.
    destruct (redis_rejects st) as [|[] rej] eqn:Hrr; state_simpl.
    all: match goal with
         | |- context [eta_loop _ _ _ ?acc ?s] =>
             destruct (IH acc s) as (st' & -> & Hs & Hp & Ho & Hpub & Hrej & Hnow & Hkv)
         end.
    all: exists st'; rewrite <- app_assoc; cbn [app].
    all: repeat (split; [done|]).
    all: intros k Hk; rewrite (Hkv k Hk); state_simpl; try done.
    all: by rewrite lookup_insert_ne.
Qed.

(** C5.  The batch of an ETA computation is built from the rows of
    [stopsQuery], one entry per row in their order.  These rows are at most
    5, ascend by stop order, and each has a stop order above that of every
    stop at which the trip has a recorded arrival, hence above the highest
    of them.  The batch goes out as one eta_update to the observers' group
    ("passengers") exactly when a trip is bound, the Catalog Store answers
    and there is at least one row; otherwise nothing is emitted. *)
Theorem eta_batch st currentLocation :
  let st' := run (calculateAndEmitETAs currentLocation) st in
  let rows := (stopsQuery (tripId (sock st)) (pg st)).1 in
  (length rows ≤ 5)%nat ∧
  Sorted order_le rows ∧
  (∀ row t rs2 ts,
     row ∈ rows → tripId (sock st) = Some t →
     rs2 ∈ route_stops (pg st) →
     trip_stops (pg st) !! (t, rs_bus_stop_id rs2) = Some ts →
     is_Some (actual_arrival ts) →
     (stop_order rs2 < s_stop_order row)%Z) ∧
  emitted st st' =
    (if truthy_str (tripId (sock st)) && negb (hd false (pg_rejects st)) &&
        (0 <? length rows)%nat
     then [ {| dest := ToRoom "passengers"; event := "eta_update";
               payload := EtaInfo (vehicleId (sock st)) (tripId (sock st))
                            (etaUpdate currentLocation <$> rows) |} ]
     else []).
Proof.
  cbv zeta. split; [apply stopsQuery_length|]. split; [apply stopsQuery_sorted|].
  split.
  - intros row t rs2 ts Hrow Ht Hrs Hts Ha. rewrite Ht in Hrow.
    apply stopsQuery_elem in Hrow as (r & _ & Hrow).
    apply candidate_rows_elem in Hrow as (_ & _ & _ & _ & _ & _ & _ & Hlt).
    pose proof (arrived_threshold_upper t (pg st) rs2 ts Hrs Hts Ha). lia.
  - unfold calculateAndEmitETAs. run_handler.
    destruct (truthy_str (tripId (sock st))) eqn:Ht; state_simpl.
    2:{ apply emitted_nil. reflexivity. }
    destruct (pg_rejects st) as [|[] rej] eqn:Hrej; state_simpl.
    2:{ apply emitted_nil. reflexivity. }
    all: destruct (0 <? length (stopsQuery (tripId (sock st)) (pg st)).1)%nat eqn:Hn.
    all: try (apply emitted_nil; reflexivity).
    all: match goal with
         | |- context [eta_loop ?s ?c ?rows ?acc ?s0] =>
             destruct (eta_loop_spec s c rows acc s0)
               as (st' & -> & Hs & Hp & Ho & Hpub & Hrj & Hnow & Hkv)
         end.
    all: state_simpl; apply emitted_app; rewrite Ho; reflexivity.
Qed.

Lemma calculateAndEmitETAs_frame currentLocation st :
  ∃ st',
    calculateAndEmitETAs currentLocation st = (Ok tt, st') ∧
    sock st' = sock st ∧ pg st' = pg st ∧ published st' = published st ∧
    ∀ k, (∀ s, k ≠ eta_key (tripId (sock st)) s (vehicleId (sock st))) →
         redis st' !! k = redis st !! k.
Proof.
  unfold calculateAndEmitETAs. run_handler.
  destruct (truthy_str (tripId (sock st))); state_simpl; [|by exists st].
  destruct (pg_rejects st) as [|[] rej]; state_simpl.
  2:{ eexists. split; [reflexivity|]. by state_simpl. }
  all: destruct (0 <? length (stopsQuery (tripId (sock st)) (pg st)).1)%nat.
  all: try (eexists; split; [reflexivity|]; by state_simpl).
  all: match goal with
       | |- context [eta_loop ?s ?c ?rows ?acc ?s0] =>
           destruct (eta_loop_spec s c rows acc s0)
             as (st' & -> & Hs & Hp & Ho & Hpub & Hrj & Hnow & Hkv)
       end.
  all: eexists; split; [reflexivity|]; state_simpl.
  all: rewrite Hs, Hp, Hpub; state_simpl; repeat (split; [done|]).
  all: intros k Hk; by rewrite (Hkv k Hk).
Qed.

Lemma vehicle_location_key_not_eta v r s v' :
  vehicle_location_key v ≠ eta_key r s v'.
Proof. discriminate. Qed.

(** A valid fix from a connection with a vehicle, once the Catalog Store
    has taken the insert: the row is appended, and the snapshot is what the
    Session Store holds for the vehicle if it took the command. *)
Lemma handleLocationUpdate_accepted st locationData :
  truthy_num (latitude locationData) = true →
  truthy_num (longitude locationData) = true →
  truthy_str (vehicleId (sock st)) = true →
  hd false (pg_rejects st) = false →
  let st' := run (handleLocationUpdate locationData) st in
  vehicle_locations (pg st') = vehicle_locations (pg st) ++ [fix_row st locationData] ∧
  (hd false (redis_rejects st) = false →
   redis st' !! vehicle_location_key (vehicleId (sock st))
     = Some (300%Z, CachedLocation (fix_snapshot st locationData))).
Proof.
  intros Hlat Hlon Hv Hpg. cbv zeta.
  unfold handleLocationUpdate. run_handler.
  rewrite Hlat, Hlon, Hv. state_simpl.
  destruct (pg_rejects st) as [|[] rej]; [|done|]; state_simpl.
  all: destruct (redis_rejects st) as [|[] [|[] [|[] ?]]]; state_simpl.
  all: destruct (truthy_str (tripId (sock st))); state_simpl.
  all: try (destruct rej as [|[] rej]; state_simpl).
  all: try destruct (routeQuery (tripId (sock st)) _).1 as [|routeId ?]; state_simpl.
  all: try match goal with
       | |- context [calculateAndEmitETAs ?c ?s0] =>
           destruct (calculateAndEmitETAs_frame c s0)
             as (st' & -> & Hs & Hp & Hpub & Hkv)
       end.
  all: state_simpl; rewrite ?Hp; state_simpl.
  all: (split; [reflexivity|]); intros Hr; try discriminate Hr.
  all: rewrite ?Hkv by (intros s; apply vehicle_location_key_not_eta).
  all: state_simpl; by rewrite lookup_insert_eq.
Qed.

Lemma or_null_zero z : (z == 0)%Q → or_null (Some z) = None.
Proof.
  intros Hz. unfold or_null, truthy_num.
  by rewrite (proj2 (Qeq_bool_iff z 0) Hz).
Qed.

(** C8.  For an accepted location_update (truthy latitude and longitude,
    vehicle bound, insert taken by the Catalog Store) the LocationFix row
    stores NULL for a speed, heading or accuracy supplied as 0, because the
    default is chosen by falsiness, while the CachedLocation snapshot of the
    same fix keeps the 0: row and snapshot differ on these fields. *)
Theorem zero_reading_null_in_row_kept_in_cache st locationData :
  truthy_num (latitude locationData) = true →
  truthy_num (longitude locationData) = true →
  truthy_str (vehicleId (sock st)) = true →
  hd false (pg_rejects st) = false →
  let st' := run (handleLocationUpdate locationData) st in
  ∃ row data,
    vehicle_locations (pg st') = vehicle_locations (pg st) ++ [row] ∧
    (hd false (redis_rejects st) = false →
     redis st' !! vehicle_location_key (vehicleId (sock st))
       = Some (300%Z, CachedLocation data)) ∧
    ∀ z, (z == 0)%Q →
      (speed locationData = Some z → vl_speed row = None ∧ c_speed data = Some z) ∧
      (heading locationData = Some z →
       vl_heading row = None ∧ c_heading data = Some z) ∧
      (accuracy locationData = Some z →
       vl_accuracy row = None ∧ c_accuracy data = Some z).
Proof.
  intros Hlat Hlon Hv Hpg. cbv zeta.
  destruct (handleLocationUpdate_accepted st locationData Hlat Hlon Hv Hpg)
    as (Hrow & Hkv).
  exists (fix_row st locationData), (fix_snapshot st locationData).
  split; [exact Hrow|]. split; [exact Hkv|].
  intros z Hz. unfold fix_row, fix_snapshot. cbn.
  repeat split; try done; match goal with H : _ = Some z |- _ => rewrite H end;
    by apply or_null_zero.
Qed.

(** [zero_reading_null_in_row_kept_in_cache] on a fix with speed 0. *)
Lemma zero_reading_null_in_row_kept_in_cache_witness :
  let st := example_state (Some "t1") Active in
  let st' := run (handleLocationUpdate example_fix) st in
  truthy_num (latitude example_fix) = true ∧
  truthy_num (longitude example_fix) = true ∧
  truthy_str (vehicleId (sock st)) = true ∧
  hd false (pg_rejects st) = false ∧
  ∃ row data,
    vehicle_locations (pg st') = [row] ∧
    redis st' !! "vehicle:location:v1" = Some (300%Z, CachedLocation data) ∧
    vl_speed row = None ∧ c_speed data = Some 0%Q.
Proof.
  cbv zeta. repeat (split; [reflexivity|]).
  destruct (zero_reading_null_in_row_kept_in_cache
              (example_state (Some "t1") Active) example_fix
              eq_refl eq_refl eq_refl eq_refl) as (row & data & Hrow & Hkv & Hz).
  exists row, data. split; [exact Hrow|]. split; [exact (Hkv eq_refl)|].
  exact (proj1 (Hz 0%Q (Qeq_refl 0)) eq_refl).
Defined.

(** ** Disconnection Reconciler *)

Lemma driverStatusQuery_trips s driver t_now db :
  trips (driverStatusQuery s driver t_now db).2 = trips db.
Proof. unfold driverStatusQuery. by destruct driver. Qed.

Lemma driverStatusQuery_status s d t_now db dr :
  drivers db !! d = Some dr →
  ∃ dr', drivers (driverStatusQuery s (Some d) t_now db).2 !! d = Some dr' ∧
         d_status dr' = s.
Proof.
  intros H. unfold driverStatusQuery. cbn [snd drivers with_drivers].
  rewrite lookup_alter_eq, H. cbn. eauto.
Qed.

(** C7.  When the transport of a bound driver connection closes, the
    DriverSession of the driver is deleted (if the Session Store takes the
    command) and the status of the driver profile becomes inactive (if the
    Catalog Store takes the statement); whatever the stores answer, no row
    of trips changes, so a trip in progress stays active; and the close of
    a connection that is not a driver's sends nothing to either store. *)
Theorem disconnection_reconciles st :
  let st' := run handleDisconnection st in
  trips (pg st') = trips (pg st) ∧
  (userRole (sock st) = "driver" → truthy_str (driverId (sock st)) = true →
   (hd false (redis_rejects st) = false →
    redis st' !! driver_session_key (driverId (sock st)) = None) ∧
   (hd false (pg_rejects st) = false →
    ∀ d dr, driverId (sock st) = Some d → drivers (pg st) !! d = Some dr →
      ∃ dr', drivers (pg st') !! d = Some dr' ∧ d_status dr' = DriverInactive)) ∧
  (userRole (sock st) ≠ "driver" → st' = st).
Proof.
  cbv zeta. unfold handleDisconnection. run_handler.
  destruct (String.eqb_spec (userRole (sock st)) "driver") as [Hrole|Hrole];
    state_simpl.
  2:{ repeat split; try done. }
  destruct (truthy_str (driverId (sock st))) eqn:Hd; state_simpl.
  2:{ repeat split; try done. }
  destruct (redis_rejects st) as [|[] ?]; state_simpl.
  all: destruct (pg_rejects st) as [|[] ?]; state_simpl.
  all: rewrite ?driverStatusQuery_trips.
  all: (split; [reflexivity|]); (split; [|done]); intros _ _.
  all: split; [intros Hr; try discriminate Hr; apply lookup_delete_eq|].
  all: intros Hp d dr Hdd Hdr; try discriminate Hp.
  all: rewrite Hdd; by eapply driverStatusQuery_status.
Qed.

(** [disconnection_reconciles] on the connection of d1 with t1 in
    progress. *)
Lemma disconnection_reconciles_witness :
  let st := example_state (Some "t1") Active in
  let st' := run handleDisconnection st in
  userRole (sock st) = "driver" ∧ truthy_str (driverId (sock st)) = true ∧
  redis st' !! "driver:session:d1" = None ∧
  (∃ dr', drivers (pg st') !! "d1" = Some dr' ∧ d_status dr' = DriverInactive) ∧
  status <$> trips (pg st') !! "t1" = Some Active.
Proof.
  cbv zeta.
  destruct (disconnection_reconciles (example_state (Some "t1") Active))
    as (Ht & Hd & _).
  destruct (Hd eq_refl eq_refl) as (Hkv & Hpg).
  split; [reflexivity|]. split; [reflexivity|].
  split; [exact (Hkv eq_refl)|].
  split; [exact (Hpg eq_refl "d1" _ eq_refl eq_refl)|].
  rewrite Ht. reflexivity.
Defined.

(** ** Driver Session Manager *)

Lemma driver_vehicle_rows_nonempty d dr db p : driver_vehicle_rows d dr db p ≠ [].
Proof.
  unfold driver_vehicle_rows.
  by destruct (active_trips_of_vehicle p.1 db).
Qed.

Lemma driver_rows_nonempty db p : driver_rows db p ≠ [].
Proof.
  unfold driver_rows. destruct (vehicles_of_driver p.1 db) as [|v vs]; [done|].
  cbn. pose proof (driver_vehicle_rows_nonempty p.1 p.2 db v).
  by destruct (driver_vehicle_rows p.1 p.2 db v).
Qed.

(** The lookup returns no rows exactly when no driver profile belongs to
    the user. *)
Lemma driverQuery_no_rows user db :
  (driverQuery user db).1 = [] ↔
  ∀ d dr, drivers db !! d = Some dr → d_user_id dr ≠ user.
Proof.
  unfold driverQuery. cbn [fst]. split.
  - intros Hnil d dr Hd Hu.
    assert (Hin : (d, dr) ∈ filter (λ p, d_user_id p.2 = user) (map_to_list (drivers db))).
    { apply list_elem_of_filter. split; [done|]. by apply elem_of_map_to_list. }
    destruct (filter _ _) as [|p ps]; [by apply elem_of_nil in Hin|].
    cbn in Hnil. pose proof (driver_rows_nonempty db p).
    by destruct (driver_rows db p).
  - intros Hno.
    destruct (filter (λ p, d_user_id p.2 = user) (map_to_list (drivers db)))
      as [|[d dr] ps] eqn:Hf; [done|].
    assert (Hin : (d, dr) ∈ filter (λ p, d_user_id p.2 = user) (map_to_list (drivers db)))
      by (rewrite Hf; left).
    apply list_elem_of_filter in Hin as [Hu Hin].
    apply elem_of_map_to_list in Hin. by destruct (Hno d dr Hin).
Qed.

(** C9.  When the driver-profile lookup of a driver connection returns no
    rows, the connection is answered with the profile-not-found error and
    the handler returns there: no DriverSession is written, nothing in
    either store changes, no driver listener is registered (only
    disconnect is listened to), and so any later location_update,
    start_trip, end_trip or passenger_count_update on that connection
    leaves the state as it is: no effect and no error reply. *)
Theorem profile_not_found st :
  userRole (sock st) = "driver" →
  listeners (sock st) = [] →
  (driverQuery (userId (sock st)) (pg st)).1 = [] →
  hd false (pg_rejects st) = false →
  let st' := run setupLocationSocket st in
  emitted st st' = [ProfileNotFound] ∧
  listeners (sock st') = ["disconnect"] ∧
  driverId (sock st') = driverId (sock st) ∧
  pg st' = pg st ∧ redis st' = redis st ∧ redis_rejects st' = redis_rejects st ∧
  ∀ e st2, sock st2 = sock st' → driver_event e → run (receive e) st2 = st2.
Proof.
  intros Hrole Hl Hq Hp. cbv zeta.
  assert (Hrun : run setupLocationSocket st =
                 with_sock {| socket_id := socket_id (sock st); userId := userId (sock st);
                              userRole := userRole (sock st);
                              driverId := driverId (sock st);
                              vehicleId := vehicleId (sock st);
                              tripId := tripId (sock st); rooms := rooms (sock st);
                              listeners := ["disconnect"] |}
                   (with_outbox (outbox st ++ [ProfileNotFound])
                      (with_pg (pg st) (tail (pg_rejects st)) st))).
  { assert (Hd : String.eqb (userRole (sock st)) "driver" = true)
      by (by rewrite Hrole).
    assert (Hpa : String.eqb (userRole (sock st)) "passenger" = false)
      by (by rewrite Hrole).
    assert (Had : String.eqb (userRole (sock st)) "admin" = false)
      by (by rewrite Hrole).
    unfold setupLocationSocket, handleDriverConnection. run_handler.
    rewrite Hd, Hpa, Had. state_simpl.
    destruct (pg_rejects st) as [|[] rej]; [|done|]; state_simpl.
    all: rewrite Hq; state_simpl; rewrite Hl; reflexivity. }
  rewrite Hrun. state_simpl.
  split; [apply emitted_app; reflexivity|]. repeat (split; [reflexivity|]).
  intros e st2 Hs He. unfold receive, run, bind, get_socket.
  rewrite Hs. cbn [listeners].
  destruct e; try done; reflexivity.
Qed.

(** [profile_not_found] on a driver connection of user u9, who has no
    driver profile. *)
Lemma profile_not_found_witness :
  let st :=
    {| sock := {| socket_id := "sock-9"; userId := "u9"; userRole := "driver";
                  driverId := None; vehicleId := None; tripId := None;
                  rooms := []; listeners := [] |};
       pg := example_db Active; redis := ∅; published := []; outbox := [];
       now := 100; pg_rejects := []; redis_rejects := [] |} in
  let st' := run setupLocationSocket st in
  (driverQuery (userId (sock st)) (pg st)).1 = [] ∧
  emitted st st' = [ProfileNotFound] ∧
  redis st' = ∅ ∧
  run (receive (location_update example_fix)) st' = st' ∧
  run (receive start_trip) st' = st'.
Proof.
  cbv zeta.
  match goal with
  | |- context [run setupLocationSocket ?s] =>
      destruct (profile_not_found s eq_refl eq_refl eq_refl eq_refl)
        as (Hout & _ & _ & _ & Hkv & _ & Hev)
  end.
  split; [reflexivity|]. split; [exact Hout|]. split; [exact Hkv|].
  split; [exact (Hev (location_update example_fix) _ eq_refl I)|].
  exact (Hev start_trip _ eq_refl I).
Defined.

(** ** Passenger-count Recorder *)

Lemma passengerCountQuery_row c t t_now db r :
  trips db !! t = Some r →
  ∃ r', trips (passengerCountQuery c (Some t) t_now db).2 !! t = Some r' ∧
        passenger_count r' = c ∧ status r' = status r ∧
        driver_id r' = driver_id r ∧ vehicle_id r' = vehicle_id r ∧
        route_id r' = route_id r ∧
        actual_start_time r' = actual_start_time r ∧
        actual_end_time r' = actual_end_time r ∧
        distance_covered r' = distance_covered r.
Proof.
  intros H. unfold passengerCountQuery. cbn [snd trips with_trips].
  rewrite lookup_alter_eq, H. cbn. eexists. split; [reflexivity|]. by cbn.
Qed.

Lemma tripStopQuery_trips t s c t_now db :
  trips (tripStopQuery t s c t_now db).2 = trips db.
Proof. unfold tripStopQuery. by destruct t, s. Qed.

Lemma tripStopQuery_row t s c t_now db :
  ∃ row, trip_stops (tripStopQuery (Some t) (Some s) c t_now db).2 !! (t, s) = Some row ∧
         actual_arrival row = Some t_now ∧ passengers_boarded row = c.
Proof.
  unfold tripStopQuery. cbn [snd trip_stops with_trip_stops].
  rewrite lookup_insert_eq. eexists. split; [reflexivity|].
  by destruct (trip_stops db !! (t, s)).
Qed.

(** C10.  A passenger_count_update on a connection with a bound trip
    overwrites the passenger_count of that trip whoever its driver is and
    whatever its status: the statement matches on the trip id alone, and
    driver and status of the row stay as they were.  With a stopId, the
    TripStop row of (trip, stop) is upserted on every call with
    actual_arrival set to the time of the call and passengers_boarded set
    to the count; without one, trip_stops is left alone.  The new count is
    fanned out to the vehicle group and no error is sent. *)
Theorem passenger_count_unconditional st countData t r :
  tripId (sock st) = Some t → t ≠ EmptyString →
  trips (pg st) !! t = Some r →
  accepts 2 (pg_rejects st) = true →
  let st' := run (handlePassengerCountUpdate countData) st in
  (∃ r', trips (pg st') !! t = Some r' ∧
         passenger_count r' = count countData ∧
         status r' = status r ∧ driver_id r' = driver_id r) ∧
  (∀ s, stopId countData = Some s → s ≠ EmptyString →
     ∃ row, trip_stops (pg st') !! (t, s) = Some row ∧
            actual_arrival row = Some (now st) ∧
            passengers_boarded row = count countData) ∧
  (truthy_str (stopId countData) = false → trip_stops (pg st') = trip_stops (pg st)) ∧
  emitted st st' =
    [ {| dest := ToRoom ("vehicle:" +:+ id_text (vehicleId (sock st)));
         event := "passenger_count_update";
         payload := PassengerCountInfo (vehicleId (sock st)) (tripId (sock st))
                      (count countData) (stopId countData) |} ].
Proof.
  intros Ht Hne Hr Hacc. cbv zeta.
  destruct (passengerCountQuery_row (count countData) t (now st) (pg st) r Hr)
    as (r' & Hr' & Hc & Hs & Hd & _).
  unfold handlePassengerCountUpdate. run_handler.
  rewrite Ht in *. rewrite (truthy_str_Some t Hne). state_simpl.
  destruct (pg_rejects st) as [|[] rej]; [|done|]; state_simpl.
  all: destruct (truthy_str (stopId countData)) eqn:Hstop; state_simpl.
  all: try (destruct rej as [|[] rej]; [|done|]; state_simpl).
  all: rewrite ?tripStopQuery_trips.
  all: split; [by exists r'|].
  all: split; [intros s Hsid Hsne|].
  all: try (rewrite Hsid in *; apply tripStopQuery_row).
  all: try (rewrite Hsid, (truthy_str_Some s Hsne) in Hstop; discriminate).
  all: split; [intros Hf; try discriminate Hf; reflexivity|].
  all: apply emitted_app; reflexivity.
Qed.

(** [passenger_count_unconditional] on the connection of d1 bound to t2,
    a completed trip of driver d2. *)
Lemma passenger_count_unconditional_witness :
  let st := example_state (Some "t2") Active in
  let countData := {| count := Some (31 # 1); stopId := Some "s2" |} in
  let st' := run (handlePassengerCountUpdate countData) st in
  trips (pg st) !! "t2" = Some (example_trip "d2" Completed) ∧
  driverId (sock st) = Some "d1" ∧
  accepts 2 (pg_rejects st) = true ∧
  (∃ r', trips (pg st') !! "t2" = Some r' ∧ passenger_count r' = Some (31 # 1) ∧
         status r' = Completed ∧ driver_id r' = "d2") ∧
  (∃ row, trip_stops (pg st') !! ("t2", "s2") = Some row ∧
          actual_arrival row = Some 100%Z ∧ passengers_boarded row = Some (31 # 1)).
Proof.
  cbv zeta.
  destruct (passenger_count_unconditional (example_state (Some "t2") Active)
              {| count := Some (31 # 1); stopId := Some "s2" |}
              "t2" (example_trip "d2" Completed)
              eq_refl ltac:(done) eq_refl eq_refl) as (Hrow & Hstop & _).
  repeat (split; [reflexivity|]). split; [exact Hrow|].
  exact (Hstop "s2" eq_refl ltac:(done)).
Defined.

(** [eta_batch] after an arrival has been recorded at stop s1 (order 1):
    the rows are s2 and s3. *)
Lemma eta_batch_witness :
  let st := run (handlePassengerCountUpdate {| count := Some (5 # 1); stopId := Some "s1" |})
              (example_state (Some "t1") Active) in
  let rows := (stopsQuery (tripId (sock st)) (pg st)).1 in
  s_id <$> rows = ["s2"; "s3"] ∧
  (length rows ≤ 5)%nat ∧
  ∀ row, row ∈ rows → (1 < s_stop_order row)%Z.
Proof.
  cbv zeta.
  match goal with
  | |- context [stopsQuery (tripId (sock ?s)) _] =>
      destruct (eta_batch s (Some (3030 # 100), Some (7803 # 100)))
        as (Hlen & _ & Hord & _)
  end.
  split; [reflexivity|]. split; [exact Hlen|].
  intros row Hrow.
  refine (Hord row "t1" {| rs_route_id := "r1"; rs_bus_stop_id := "s1"; stop_order := 1 |}
            {| scheduled_arrival := None; actual_arrival := Some 100%Z;
               actual_departure := None; passengers_boarded := Some (5 # 1);
               passengers_alighted := Some 0%Q |}
            Hrow eq_refl _ eq_refl (ex_intro _ 100%Z eq_refl)).
  vm_compute. right. left.
Defined.

(** * Further properties of the hub *)

(** ** Commands without a bound trip *)

Lemma handlers_without_trip st :
  truthy_str (tripId (sock st)) = false →
  run handleTripStart st = with_outbox (outbox st ++ [NoActiveTrip]) st ∧
  (∀ tripData,
     run (handleTripEnd tripData) st = with_outbox (outbox st ++ [NoActiveTrip]) st) ∧
  (∀ countData,
     run (handlePassengerCountUpdate countData) st
       = with_outbox (outbox st ++ [NoActiveTrip]) st).
Proof.
  intros H.
  unfold handleTripStart, handleTripEnd, handlePassengerCountUpdate. run_handler.
  rewrite H. repeat split.
Qed.

(** X1.  On a connection with no bound trip, start_trip, end_trip and
    passenger_count_update are each answered with NoActiveTrip and do
    nothing else: no statement reaches either store. *)
Theorem trip_commands_need_bound_trip st :
  truthy_str (tripId (sock st)) = false →
  run handleTripStart st = with_outbox (outbox st ++ [NoActiveTrip]) st ∧
  (∀ tripData,
     run (handleTripEnd tripData) st = with_outbox (outbox st ++ [NoActiveTrip]) st) ∧
  (∀ countData,
     run (handlePassengerCountUpdate countData) st
       = with_outbox (outbox st ++ [NoActiveTrip]) st).
Proof. exact (handlers_without_trip st). Qed.

Lemma trip_commands_need_bound_trip_witness :
  truthy_str (tripId (sock unassigned_state)) = false ∧
  emitted unassigned_state (run handleTripStart unassigned_state) = [NoActiveTrip] ∧
  pg (run (handleTripEnd example_end) unassigned_state) = pg unassigned_state.
Proof.
  split; [reflexivity|].
  destruct (trip_commands_need_bound_trip unassigned_state eq_refl) as (H1 & H2 & _).
  rewrite H1, (H2 example_end). split; reflexivity.
Defined.

(** X2.  After an end_trip that went through, the connection has no trip
    any more: every later start_trip, end_trip or passenger_count_update
    on it is answered with NoActiveTrip and changes nothing, so the driver
    has to connect again before another trip can be driven. *)
Theorem ended_connection_takes_no_trip_command st tripData :
  let st1 := run (handleTripEnd tripData) st in
  acknowledged "trip_ended" st st1 = true →
  run handleTripStart st1 = with_outbox (outbox st1 ++ [NoActiveTrip]) st1 ∧
  (∀ tripData',
     run (handleTripEnd tripData') st1 = with_outbox (outbox st1 ++ [NoActiveTrip]) st1) ∧
  (∀ countData,
     run (handlePassengerCountUpdate countData) st1
       = with_outbox (outbox st1 ++ [NoActiveTrip]) st1).
Proof.
  cbv zeta. intros Hack. apply handlers_without_trip.
  destruct (handleTripEnd_acknowledged st tripData Hack)
    as (t & r & _ & _ & _ & _ & _ & _ & Hsock).
  by rewrite Hsock.
Qed.

Lemma ended_connection_takes_no_trip_command_witness :
  let st := example_state (Some "t1") Active in
  let st1 := run (handleTripEnd example_end) st in
  acknowledged "trip_ended" st st1 = true ∧
  emitted st1 (run handleTripStart st1) = [NoActiveTrip] ∧
  emitted st1 (run (handleTripEnd example_end) st1) = [NoActiveTrip].
Proof.
  cbv zeta. split; [reflexivity|].
  destruct (ended_connection_takes_no_trip_command
              (example_state (Some "t1") Active) example_end eq_refl) as (H1 & H2 & _).
  rewrite H1, (H2 example_end). split; reflexivity.
Defined.

(** ** Ending a trip *)

(** X3.  An end_trip on a connection whose bound trip is not a trip of the
    calling driver matches zero rows: the driver is answered with EndFailed
    and both stores stay as they were (no session is deleted, no counter
    moves), whether or not the Catalog Store accepts the statement. *)
Theorem end_trip_foreign_fails st tripData t :
  tripId (sock st) = Some t → t ≠ EmptyString →
  (∀ r, trips (pg st) !! t = Some r → driverId (sock st) ≠ Some (driver_id r)) →
  let st' := run (handleTripEnd tripData) st in
  emitted st st' = [EndFailed] ∧ pg st' = pg st ∧ redis st' = redis st ∧
  tripId (sock st') = Some t.
Proof.
  intros Ht Hne Hr. cbv zeta.
  pose proof (owned_trip_foreign st t Ht Hr) as Ho.
  assert (outbox (run (handleTripEnd tripData) st) = outbox st ++ [EndFailed] ∧
          pg (run (handleTripEnd tripData) st) = pg st ∧
          redis (run (handleTripEnd tripData) st) = redis st ∧
          tripId (sock (run (handleTripEnd tripData) st)) = Some t) as (H1 & H2 & H3 & H4).
  { unfold handleTripEnd. run_handler.
    rewrite Ht in *. rewrite (truthy_str_Some t Hne). state_simpl.
    destruct (pg_rejects st) as [|[] ?]; state_simpl;
      rewrite ?(endQuery_foreign _ _ _ _ _ _ Ho); state_simpl; auto. }
  auto using emitted_app.
Qed.

Lemma end_trip_foreign_fails_witness :
  let st := example_state (Some "t2") Active in
  tripId (sock st) = Some "t2" ∧
  (∀ r, trips (pg st) !! "t2" = Some r → driverId (sock st) ≠ Some (driver_id r)) ∧
  emitted st (run (handleTripEnd example_end) st) = [EndFailed] ∧
  pg (run (handleTripEnd example_end) st) = pg st.
Proof.
  cbv zeta.
  assert (Hr : ∀ r, trips (pg (example_state (Some "t2") Active)) !! "t2" = Some r →
               driverId (sock (example_state (Some "t2") Active)) ≠ Some (driver_id r)).
  { intros r Hr. vm_compute in Hr. injection Hr as <-. discriminate. }
  destruct (end_trip_foreign_fails (example_state (Some "t2") Active) example_end "t2"
              eq_refl ltac:(done) Hr) as (H1 & H2 & _).
  split; [reflexivity|]. split; [exact Hr|]. split; [exact H1|exact H2].
Defined.

Lemma totalTripsQuery_drivers driver t_now db db' :
  drivers db = drivers db' →
  drivers (totalTripsQuery driver t_now db).2 = drivers (totalTripsQuery driver t_now db').2.
Proof.
  intros H. unfold totalTripsQuery. destruct driver; cbn; [by rewrite H|done].
Qed.

(** What handleTripEnd does to the bound trip of the calling driver, by
    the answers of the Catalog Store to its two statements. *)
Lemma handleTripEnd_owned st tripData t r :
  tripId (sock st) = Some t → t ≠ EmptyString →
  trips (pg st) !! t = Some r →
  driverId (sock st) = Some (driver_id r) →
  hd false (pg_rejects st) = false →
  let st' := run (handleTripEnd tripData) st in
  let r' := completed_row r (or_zero (passengerCount tripData))
              (or_zero (distanceCovered tripData)) (now st) in
  trips (pg st') !! t = Some r' ∧
  redis st' = (if hd false (redis_rejects st) then redis st
               else delete (driver_session_key (driverId (sock st))) (redis st)) ∧
  if hd false (tail (pg_rejects st))
  then emitted st st' = [EndFailed] ∧ drivers (pg st') = drivers (pg st) ∧
       tripId (sock st') = Some t
  else acknowledged "trip_ended" st st' = true ∧
       drivers (pg st') =
         drivers (totalTripsQuery (driverId (sock st)) (now st) (pg st)).2 ∧
       tripId (sock st') = None.
Proof.
  intros Ht Hne Hr Hd Hp. cbv zeta.
  assert (Ho : owned_trip (tripId (sock st)) (driverId (sock st)) (pg st) = Some (t, r)).
  { unfold owned_trip. rewrite Ht, Hd, Hr. by rewrite decide_True. }
  unfold acknowledged, emitted, handleTripEnd. run_handler.
  rewrite Ht in *. rewrite (truthy_str_Some t Hne). state_simpl.
  destruct (pg_rejects st) as [|[] rej]; [|done|]; state_simpl.
  all: rewrite (endQuery_owned _ _ _ _ _ _ _ _ Ho); state_simpl.
  all: destruct (redis_rejects st) as [|[] ?]; state_simpl.
  all: try (destruct rej as [|[] ?]); state_simpl.
  all: rewrite ?totalTripsQuery_trips; cbn [trips with_trips].
  all: rewrite <- ?app_assoc, ?drop_app_length.
  all: (split; [by rewrite lookup_insert_eq|]); (split; [reflexivity|]).
  all: repeat split; try reflexivity; try exact Ht.
  all: by apply totalTripsQuery_drivers.
Qed.

(** X4.  The match of an end has no condition on the status either: an
    end_trip on the bound trip of the calling driver goes through whatever
    the status of the trip, even when it is already completed; the trip is
    completed anew with the time of this command and total_trips of the
    driver goes up once more.  total_trips counts the end_trip commands that
    went through, not the trips. *)
Theorem end_trip_owned_succeeds_in_any_status st tripData t r dr :
  tripId (sock st) = Some t → t ≠ EmptyString →
  trips (pg st) !! t = Some r →
  driverId (sock st) = Some (driver_id r) →
  drivers (pg st) !! driver_id r = Some dr →
  accepts 2 (pg_rejects st) = true →
  let st' := run (handleTripEnd tripData) st in
  acknowledged "trip_ended" st st' = true ∧
  (∃ r', trips (pg st') !! t = Some r' ∧ status r' = Completed ∧
         actual_end_time r' = Some (now st)) ∧
  (∃ dr', drivers (pg st') !! driver_id r = Some dr' ∧
          total_trips dr' = (λ n, n + 1)%Z <$> total_trips dr).
Proof.
  intros Ht Hne Hr Hd Hdr Hacc. cbv zeta.
  assert (Hp : hd false (pg_rejects st) = false ∧ hd false (tail (pg_rejects st)) = false).
  { destruct (pg_rejects st) as [|[] [|[] ?]]; try done. }
  destruct Hp as [Hp1 Hp2].
  destruct (handleTripEnd_owned st tripData t r Ht Hne Hr Hd Hp1) as (Hrow & _ & Hrest).
  rewrite Hp2 in Hrest. destruct Hrest as (Hack & Hdrv & _).
  split; [exact Hack|]. split; [eexists; split; [exact Hrow|done]|].
  rewrite Hdrv, Hd. by apply totalTripsQuery_counter.
Qed.

Lemma end_trip_owned_succeeds_in_any_status_witness :
  let st := example_state (Some "t1") Completed in
  let st' := run (handleTripEnd example_end) st in
  status <$> trips (pg st) !! "t1" = Some Completed ∧
  total_trips <$> drivers (pg st) !! "d1" = Some (Some 7%Z) ∧
  acknowledged "trip_ended" st st' = true ∧
  ∃ dr', drivers (pg st') !! "d1" = Some dr' ∧ total_trips dr' = Some 8%Z.
Proof.
  cbv zeta. split; [reflexivity|]. split; [reflexivity|].
  destruct (end_trip_owned_succeeds_in_any_status
              (example_state (Some "t1") Completed) example_end "t1"
              (example_trip "d1" Completed)
              {| d_user_id := "u1"; d_status := DriverActive;
                 total_trips := Some 7%Z; d_updated_at := 0 |}
              eq_refl ltac:(done) eq_refl eq_refl eq_refl eq_refl)
    as (Hack & _ & Hdr).
  split; [exact Hack|exact Hdr].
Defined.

(** X5.  The two statements of an end are not one transaction: when the
    Catalog Store takes the UPDATE of the trip and rejects the UPDATE of the
    driver, the trip stays completed and the DriverSession deleted, yet the
    driver is answered with EndFailed, total_trips is unchanged and the trip
    stays bound to the connection. *)
Theorem end_trip_half_done st tripData t r rest :
  tripId (sock st) = Some t → t ≠ EmptyString →
  trips (pg st) !! t = Some r →
  driverId (sock st) = Some (driver_id r) →
  pg_rejects st = false :: true :: rest →
  redis_rejects st = [] →
  let st' := run (handleTripEnd tripData) st in
  emitted st st' = [EndFailed] ∧
  status <$> trips (pg st') !! t = Some Completed ∧
  drivers (pg st') = drivers (pg st) ∧
  redis st' !! driver_session_key (driverId (sock st)) = None ∧
  tripId (sock st') = Some t.
Proof.
  intros Ht Hne Hr Hd Hp Hk. cbv zeta.
  destruct (handleTripEnd_owned st tripData t r Ht Hne Hr Hd) as (Hrow & Hkv & Hrest).
  { by rewrite Hp. }
  rewrite Hp in Hrest. cbn in Hrest. destruct Hrest as (Hout & Hdrv & Htrip).
  rewrite Hrow, Hkv, Hk. cbn [hd].
  repeat split; try done. apply lookup_delete_eq.
Qed.

Lemma end_trip_half_done_witness :
  let st := with_pg (example_db Active) [false; true] (example_state (Some "t1") Active) in
  let st' := run (handleTripEnd example_end) st in
  pg_rejects st = [false; true] ∧
  emitted st st' = [EndFailed] ∧
  status <$> trips (pg st') !! "t1" = Some Completed ∧
  tripId (sock st') = Some "t1".
Proof.
  cbv zeta. split; [reflexivity|].
  destruct (end_trip_half_done
              (with_pg (example_db Active) [false; true] (example_state (Some "t1") Active))
              example_end "t1" (example_trip "d1" Active) []
              eq_refl ltac:(done) eq_refl eq_refl eq_refl eq_refl)
    as (H1 & H2 & _ & _ & H5).
  repeat split; assumption.
Defined.

(** ** The active-trip snapshot *)

(** What an acknowledged start_trip has done. *)
Lemma handleTripStart_acknowledged st :
  let st1 := run handleTripStart st in
  acknowledged "trip_started" st st1 = true →
  ∃ t r,
    t ≠ EmptyString ∧
    owned_trip (tripId (sock st)) (driverId (sock st)) (pg st) = Some (t, r) ∧
    hd false (pg_rejects st) = false ∧
    pg st1 = with_trips (<[t := started_row r (now st)]> (trips (pg st))) (pg st) ∧
    redis st1 = (if hd false (redis_rejects st) then redis st
                 else <[active_trip_key (tripId (sock st)) :=
                          (86400%Z, ActiveTrip t (started_row r (now st)) (now st))]>
                        (redis st)) ∧
    sock st1 = sock st ∧ now st1 = now st ∧
    emitted st st1 =
      [ {| dest := ToSender; event := "trip_started";
           payload := TripStarted (tripId (sock st)) (Some (now st)) |};
        {| dest := ToRoom ("route:" +:+ route_id r); event := "trip_status_update";
           payload := TripStatusInfo (tripId (sock st)) (vehicleId (sock st)) Active
                        (Some (now st)) |} ].
Proof.
  cbv zeta. unfold acknowledged, emitted, handleTripStart. run_handler.
  destruct (truthy_str (tripId (sock st))) eqn:Ht; state_simpl.
  2:{ rewrite drop_app_length. discriminate. }
  apply truthy_str_inv in Ht as (t & Ht & Hne).
  destruct (owned_trip (tripId (sock st)) (driverId (sock st)) (pg st))
    as [[t' r]|] eqn:Ho.
  2:{ unfold startQuery. rewrite Ho.
      destruct (pg_rejects st) as [|[] ?]; state_simpl;
        rewrite drop_app_length; discriminate. }
  rewrite (startQuery_owned _ _ _ _ _ _ Ho).
  pose proof (owned_trip_inv _ _ _ _ _ Ho) as (Ht' & Hd & Hr).
  assert (t' = t) as -> by congruence.
  destruct (pg_rejects st) as [|[] rej] eqn:Hrej; state_simpl.
  2:{ rewrite drop_app_length. discriminate. }
  all: destruct (redis_rejects st) as [|[] ?] eqn:Hrr; state_simpl.
  all: rewrite <- ?app_assoc, ?drop_app_length.
  all: intros _; exists t, r; repeat split; done.
Qed.

(** handleTripEnd writes no key of the Session Store but the session of
    the driver. *)
Lemma handleTripEnd_redis_frame st tripData k :
  k ≠ driver_session_key (driverId (sock st)) →
  redis (run (handleTripEnd tripData) st) !! k = redis st !! k.
Proof.
  intros Hk. unfold handleTripEnd. run_handler.
  destruct (truthy_str (tripId (sock st))); state_simpl; [|done].
  destruct (pg_rejects st) as [|[] rej]; state_simpl; [|done|].
  all: destruct (endQuery _ _ _ _ _ _).1 as [|[id trip] ?]; state_simpl; [done|].
  all: destruct (redis_rejects st) as [|[] ?]; state_simpl.
  all: try (destruct rej as [|[] ?]); state_simpl.
  all: try done; by rewrite lookup_delete_ne.
Qed.

(** X6.  handleTripEnd deletes the DriverSession and nothing else in the
    Session Store: the active-trip snapshot that handleTripStart cached is
    still there after the trip has been ended, and still shows the trip as
    active while the Catalog Store has it completed. *)
Theorem active_snapshot_outlives_trip st tripData :
  let st1 := run handleTripStart st in
  let st2 := run (handleTripEnd tripData) st1 in
  acknowledged "trip_started" st st1 = true →
  hd false (redis_rejects st) = false →
  acknowledged "trip_ended" st1 st2 = true →
  ∃ t r,
    tripId (sock st) = Some t ∧
    redis st2 !! active_trip_key (Some t) = Some (86400%Z, ActiveTrip t r (now st)) ∧
    status r = Active ∧
    status <$> trips (pg st2) !! t = Some Completed.
Proof.
  cbv zeta. intros Hstart Hredis Hend.
  destruct (handleTripStart_acknowledged st Hstart)
    as (t & r & Hne & Ho & Hp & Hpg & Hkv & Hsock & Hnow & _).
  destruct (owned_trip_inv _ _ _ _ _ Ho) as (Ht & Hd & Hr).
  destruct (handleTripEnd_acknowledged _ tripData Hend)
    as (t2 & r2 & _ & Ho2 & _ & Hpg2 & _).
  destruct (owned_trip_inv _ _ _ _ _ Ho2) as (Ht2 & _ & _).
  rewrite Hsock, Ht in Ht2. injection Ht2 as <-.
  exists t, (started_row r (now st)). split; [exact Ht|].
  split; [|split; [reflexivity|]].
  - rewrite handleTripEnd_redis_frame by (rewrite Hsock; discriminate).
    rewrite Hkv, Hredis, Ht. apply lookup_insert_eq.
  - rewrite Hpg2, totalTripsQuery_trips. cbn [trips with_trips].
    by rewrite lookup_insert_eq.
Qed.

Lemma active_snapshot_outlives_trip_witness :
  let st := example_state (Some "t1") Active in
  let st1 := run handleTripStart st in
  let st2 := run (handleTripEnd example_end) st1 in
  acknowledged "trip_started" st st1 = true ∧
  acknowledged "trip_ended" st1 st2 = true ∧
  ∃ r, redis st2 !! "trip:active:t1" = Some (86400%Z, ActiveTrip "t1" r 100) ∧
       status r = Active ∧
       status <$> trips (pg st2) !! "t1" = Some Completed.
Proof.
  cbv zeta. split; [reflexivity|]. split; [reflexivity|].
  destruct (active_snapshot_outlives_trip (example_state (Some "t1") Active) example_end
              eq_refl eq_refl eq_refl) as (t & r & Ht & Hkv & Hs & Hc).
  injection Ht as <-. exists r. repeat split; assumption.
Defined.

(** ** Connecting *)

Lemma driver_vehicle_rows_elem d dr db p dd :
  dd ∈ driver_vehicle_rows d dr db p →
  dd_driver_id dd = d ∧ dd_status dd = d_status dr ∧ dd_vehicle_id dd = Some p.1 ∧
  dd_registration_number dd = Some (registration_number p.2) ∧
  ∀ t, dd_trip_id dd = Some t →
    ∃ trip, trips db !! t = Some trip ∧ vehicle_id trip = p.1 ∧ status trip = Active ∧
            dd_trip_status dd = Some Active ∧ dd_route_id dd = Some (route_id trip).
Proof.
  unfold driver_vehicle_rows.
  destruct (active_trips_of_vehicle p.1 db) as [|t0 ts] eqn:Hts.
  - intros ->%list_elem_of_singleton. cbn. repeat split. discriminate.
  - intros (tr & -> & Hin)%list_elem_of_fmap. cbn. repeat split.
    intros t [= <-]. rewrite <- Hts in Hin. unfold active_trips_of_vehicle in Hin.
    apply list_elem_of_filter in Hin as [[Hv Hs] Hin].
    destruct tr as [t trip]. apply elem_of_map_to_list in Hin.
    exists trip. cbn in *. rewrite Hs. done.
Qed.

(** X7.  Every row of the driver lookup belongs to a driver profile of the
    user; its vehicle, if any, is assigned to that driver; and its trip, if
    any, is a trip of that vehicle whose status is active.  So the trip
    bound to a connection at connect time is always an active one. *)
Theorem driverQuery_rows_sound user db dd :
  dd ∈ (driverQuery user db).1 →
  (∃ dr, drivers db !! dd_driver_id dd = Some dr ∧ d_user_id dr = user ∧
         dd_status dd = d_status dr) ∧
  (∀ v, dd_vehicle_id dd = Some v →
     ∃ veh, vehicles db !! v = Some veh ∧
            assigned_driver_id veh = Some (dd_driver_id dd) ∧
            dd_registration_number dd = Some (registration_number veh)) ∧
  (∀ t, dd_trip_id dd = Some t →
     ∃ v trip, dd_vehicle_id dd = Some v ∧ trips db !! t = Some trip ∧
               vehicle_id trip = v ∧ status trip = Active ∧
               dd_trip_status dd = Some Active ∧ dd_route_id dd = Some (route_id trip)).
Proof.
  unfold driverQuery. cbn [fst].
  intros ([d dr] & Hdd & Hp)%list_elem_of_bind.
  apply list_elem_of_filter in Hp as [Hu Hp]. apply elem_of_map_to_list in Hp.
  cbn in Hu. unfold driver_rows in Hdd. cbn [fst snd] in Hdd.
  destruct (vehicles_of_driver d db) as [|v0 vs] eqn:Hvs.
  - apply list_elem_of_singleton in Hdd as ->. cbn.
    split; [by exists dr|]. split; intros ? [=].
  - apply list_elem_of_bind in Hdd as ([v veh] & Hdd & Hv).
    rewrite <- Hvs in Hv. unfold vehicles_of_driver in Hv.
    apply list_elem_of_filter in Hv as [Ha Hv]. apply elem_of_map_to_list in Hv.
    apply driver_vehicle_rows_elem in Hdd as (Hd & Hs & Hveh & Hreg & Htrip).
    cbn in *. rewrite Hd. split; [by exists dr|]. split.
    + intros v' Hv'. rewrite Hveh in Hv'. injection Hv' as <-. by exists veh.
    + intros t Ht. destruct (Htrip t Ht) as (trip & ? & ? & ? & ? & ?).
      by exists v, trip.
Qed.

Lemma driverQuery_rows_sound_witness :
  ∃ dd, dd ∈ (driverQuery "u1" (example_db Active)).1 ∧
        dd_trip_id dd = Some "t1" ∧
        ∃ v trip, dd_vehicle_id dd = Some v ∧
                  trips (example_db Active) !! "t1" = Some trip ∧ status trip = Active.
Proof.
  eexists. split; [vm_compute; left|]. split; [reflexivity|].
  match goal with
  | |- context [dd_vehicle_id ?dd] =>
      destruct (driverQuery_rows_sound "u1" (example_db Active) dd) as (_ & _ & H);
        [vm_compute; left|]
  end.
  destruct (H "t1" eq_refl) as (v & trip & Hv & Ht & _ & Hs & _).
  exists v, trip. repeat split; assumption.
Defined.

(** *** Stepping through a handler

    One equation per primitive, to run a handler one command at a time. *)

Lemma bind_ok {A B} (m : M A) (k : A → M B) st a st' :
  m st = (Ok a, st') → bind m k st = k a st'.
Proof. intros H. unfold bind. by rewrite H. Qed.

Lemma bind_get_socket {B} (k : Socket → M B) st :
  bind get_socket k st = k (sock st) st.
Proof. reflexivity. Qed.

Lemma bind_get_now {B} (k : Z → M B) st : bind get_now k st = k (now st) st.
Proof. reflexivity. Qed.

Lemma bind_ret {A B} (a : A) (k : A → M B) st : bind (ret a) k st = k a st.
Proof. reflexivity. Qed.

Lemma bind_emit {B} d ev p (k : unit → M B) st :
  bind (emit d ev p) k st
    = k tt (with_outbox (outbox st ++ [{| dest := d; event := ev; payload := p |}]) st).
Proof. reflexivity. Qed.

Lemma bind_pool_query_accepted {A B} (q : Db → A * Db) (k : A → M B) st :
  hd false (pg_rejects st) = false →
  bind (pool_query q) k st
    = k (q (pg st)).1 (with_pg (q (pg st)).2 (tail (pg_rejects st)) st).
Proof.
  intros H. unfold bind, pool_query. by destruct (pg_rejects st) as [|[] ?].
Qed.

Lemma bind_assoc {A B C} (m : M A) (f : A → M B) (k : B → M C) st :
  bind (bind m f) k st = bind m (λ x, bind (f x) k) st.
Proof. unfold bind. by destruct (m st) as [[a|] st']. Qed.

Lemma bind_redis_command {B} f (k : bool → M B) st :
  bind (redis_command f) k st =
  match redis_rejects st with
  | true :: rest => k false (with_redis (redis st) (published st) rest st)
  | _ => k true (with_redis (f (redis st, published st)).1 (f (redis st, published st)).2
                   (tail (redis_rejects st)) st)
  end.
Proof.
  unfold bind, redis_command.
  destruct (redis_rejects st) as [|[] ?]; try reflexivity;
    by destruct (f (redis st, published st)).
Qed.

Lemma bind_socket_on {B} name (k : unit → M B) st :
  bind (socket_on name) k st
    = k tt (with_sock
              {| socket_id := socket_id (sock st); userId := userId (sock st);
                 userRole := userRole (sock st); driverId := driverId (sock st);
                 vehicleId := vehicleId (sock st); tripId := tripId (sock st);
                 rooms := rooms (sock st);
                 listeners := listeners (sock st) ++ [name] |} st).
Proof. reflexivity. Qed.

Lemma bind_socket_join {B} room (k : unit → M B) st :
  bind (socket_join room) k st
    = k tt (with_sock
              {| socket_id := socket_id (sock st); userId := userId (sock st);
                 userRole := userRole (sock st); driverId := driverId (sock st);
                 vehicleId := vehicleId (sock st); tripId := tripId (sock st);
                 rooms := if bool_decide (room ∈ rooms (sock st)) then rooms (sock st)
                          else rooms (sock st) ++ [room];
                 listeners := listeners (sock st) |} st).
Proof. reflexivity. Qed.

Lemma bind_bind_driver {B} d v t (k : unit → M B) st :
  bind (bind_driver d v t) k st
    = k tt (with_sock
              {| socket_id := socket_id (sock st); userId := userId (sock st);
                 userRole := userRole (sock st); driverId := d;
                 vehicleId := v; tripId := t;
                 rooms := rooms (sock st);
                 listeners := listeners (sock st) |} st).
Proof. reflexivity. Qed.

Lemma socket_on_run name st :
  socket_on name st
    = (Ok tt, with_sock
                {| socket_id := socket_id (sock st); userId := userId (sock st);
                   userRole := userRole (sock st); driverId := driverId (sock st);
                   vehicleId := vehicleId (sock st); tripId := tripId (sock st);
                   rooms := rooms (sock st);
                   listeners := listeners (sock st) ++ [name] |} st).
Proof. reflexivity. Qed.

(** Projections of an updated state and of an updated socket. *)
Ltac step_simpl :=
  repeat (cbv beta;
          cbn [fst snd sock pg redis published outbox now pg_rejects
               redis_rejects with_sock with_pg with_redis with_outbox
               socket_id userId userRole driverId vehicleId tripId rooms listeners
               tail hd negb andb orb]).

(** One command of the monad. *)
Ltac mstep :=
  first [ rewrite bind_get_socket | rewrite bind_get_now | rewrite bind_ret
        | rewrite bind_emit | rewrite bind_socket_on | rewrite bind_socket_join
        | rewrite bind_bind_driver | rewrite bind_assoc | rewrite socket_on_run ];
  step_simpl.

Lemma try_catch_ok body handler st :
  (∀ s, (handler s).1 = Ok tt) → (try_catch body handler st).1 = Ok tt.
Proof.
  intros H. unfold try_catch. destruct (body st) as [[[]|] st']; [done|apply H].
Qed.

Lemma handleDriverConnection_ok st :
  handleDriverConnection st = (Ok tt, run handleDriverConnection st).
Proof.
  unfold run. rewrite (surjective_pairing (handleDriverConnection st)) at 1.
  f_equal. by apply try_catch_ok.
Qed.

(** What [handleDriverConnection] does when the lookup returns rows. *)
Lemma handleDriverConnection_rows st dd rest :
  (driverQuery (userId (sock st)) (pg st)).1 = dd :: rest →
  hd false (pg_rejects st) = false →
  let st1 := run handleDriverConnection st in
  sock st1 =
    {| socket_id := socket_id (sock st); userId := userId (sock st);
       userRole := userRole (sock st);
       driverId := Some (dd_driver_id dd); vehicleId := dd_vehicle_id dd;
       tripId := dd_trip_id dd;
       rooms := (if truthy_str (dd_vehicle_id dd)
                 then if bool_decide ("vehicle:" +:+ id_text (dd_vehicle_id dd)
                                        ∈ rooms (sock st))
                      then rooms (sock st)
                      else rooms (sock st) ++ ["vehicle:" +:+ id_text (dd_vehicle_id dd)]
                 else rooms (sock st));
       listeners := listeners (sock st) ++
                    ["location_update"; "start_trip"; "end_trip";
                     "passenger_count_update"] |} ∧
  pg st1 = pg st ∧ published st1 = published st ∧ now st1 = now st ∧
  pg_rejects st1 = tail (pg_rejects st) ∧
  redis_rejects st1 = tail (redis_rejects st) ∧
  redis st1 =
    (if hd false (redis_rejects st) then redis st
     else <[driver_session_key (Some (dd_driver_id dd)) :=
              (86400%Z, DriverSession (socket_id (sock st)) (dd_vehicle_id dd)
                          (dd_trip_id dd) "connected" (now st))]> (redis st)) ∧
  outbox st1 = outbox st ++
    [ {| dest := ToSender; event := "driver_status";
         payload := DriverStatusInfo (dd_driver_id dd) (dd_vehicle_id dd)
                      (dd_registration_number dd) (dd_trip_id dd)
                      (dd_trip_status dd) (dd_status dd) |} ].
Proof.
  intros Hq Hp. cbv zeta. unfold run, handleDriverConnection, try_catch.
  mstep. rewrite (bind_pool_query_accepted _ _ _ Hp), Hq. step_simpl.
  mstep.
  destruct (truthy_str (dd_vehicle_id dd)); repeat mstep.
  all: unfold setDriverSession, setex; repeat mstep.
  all: rewrite bind_redis_command; step_simpl.
  all: destruct (redis_rejects st) as [|[] ?]; step_simpl; repeat mstep.
  all: rewrite <- ?app_assoc; cbn [app]; repeat split.
Qed.

(** X8.  A driver connection whose lookup returns rows is bound to the
    driver, vehicle and trip of the first row; it joins the group of the
    vehicle if there is one, and no group of the observers; the
    DriverSession written for the driver carries the same vehicle and trip;
    the driver gets driver_status; the Catalog Store is not written; and
    from then on the four driver events reach their handlers. *)
Theorem driver_connection_binds st dd rest :
  userRole (sock st) = "driver" →
  listeners (sock st) = [] → rooms (sock st) = [] →
  (driverQuery (userId (sock st)) (pg st)).1 = dd :: rest →
  hd false (pg_rejects st) = false →
  let st' := run setupLocationSocket st in
  driverId (sock st') = Some (dd_driver_id dd) ∧
  vehicleId (sock st') = dd_vehicle_id dd ∧
  tripId (sock st') = dd_trip_id dd ∧
  rooms (sock st') = (if truthy_str (dd_vehicle_id dd)
                      then ["vehicle:" +:+ id_text (dd_vehicle_id dd)] else []) ∧
  (hd false (redis_rejects st) = false →
   redis st' !! driver_session_key (Some (dd_driver_id dd))
     = Some (86400%Z, DriverSession (socket_id (sock st)) (dd_vehicle_id dd)
                        (dd_trip_id dd) "connected" (now st))) ∧
  emitted st st' =
    [ {| dest := ToSender; event := "driver_status";
         payload := DriverStatusInfo (dd_driver_id dd) (dd_vehicle_id dd)
                      (dd_registration_number dd) (dd_trip_id dd)
                      (dd_trip_status dd) (dd_status dd) |} ] ∧
  pg st' = pg st ∧
  ∀ e st2, sock st2 = sock st' → driver_event e →
    run (receive e) st2 = run (listener e) st2.
Proof.
  intros Hrole Hl Hrooms Hq Hp. cbv zeta.
  assert (Hd : String.eqb (userRole (sock st)) "driver" = true) by (by rewrite Hrole).
  assert (Hpa : String.eqb (userRole (sock st)) "passenger" = false) by (by rewrite Hrole).
  assert (Had : String.eqb (userRole (sock st)) "admin" = false) by (by rewrite Hrole).
  destruct (handleDriverConnection_rows st dd rest Hq Hp)
    as (Hs & Hpg & _ & _ & _ & _ & Hkv & Hout).
  unfold emitted, run at 1 2 3 4 5 6 7 8, setupLocationSocket.
  mstep. rewrite Hd, Hpa, Had. cbn [orb].
  rewrite (bind_ok _ _ _ _ _ (handleDriverConnection_ok st)). repeat mstep.
  rewrite Hs, Hpg, Hkv, Hout, Hrooms, Hl, drop_app_length. step_simpl. cbn [bool_decide app].
  do 3 (split; [reflexivity|]).
  split.
  { destruct (truthy_str (dd_vehicle_id dd)); [|done].
    by rewrite bool_decide_eq_false_2 by apply not_elem_of_nil. }
  split; [intros ->; apply lookup_insert_eq|].
  do 2 (split; [reflexivity|]).
  intros e st2 Hs2 He. unfold receive, run, bind, get_socket. rewrite Hs2.
  cbn [listeners]. destruct e; try done; reflexivity.
Qed.

Lemma driver_connection_binds_witness :
  let st :=
    {| sock := {| socket_id := "sock-1"; userId := "u1"; userRole := "driver";
                  driverId := None; vehicleId := None; tripId := None;
                  rooms := []; listeners := [] |};
       pg := example_db Active; redis := ∅; published := []; outbox := [];
       now := 100; pg_rejects := []; redis_rejects := [] |} in
  let st' := run setupLocationSocket st in
  (∃ dd rest, (driverQuery (userId (sock st)) (pg st)).1 = dd :: rest) ∧
  sock st' = example_socket_connected ∧
  redis st' !! "driver:session:d1"
    = Some (86400%Z, DriverSession "sock-1" (Some "v1") (Some "t1") "connected" 100).
Proof.
  cbv zeta. split; [vm_compute; eauto|].
  match goal with
  | |- context [run setupLocationSocket ?s] =>
      destruct (driver_connection_binds s
                  {| dd_driver_id := "d1"; dd_status := DriverActive;
                     dd_vehicle_id := Some "v1";
                     dd_registration_number := Some "UK07-1234";
                     dd_trip_id := Some "t1"; dd_route_id := Some "r1";
                     dd_trip_status := Some Active |} []
                  eq_refl eq_refl eq_refl) as (_ & _ & _ & _ & Hkv & _);
        [by vm_compute | reflexivity |]
  end.
  split; [reflexivity|]. exact (Hkv eq_refl).
Defined.

(** X9.  When the Catalog Store rejects the lookup of a driver connection,
    the connection is answered with the connection-failed error and stays
    open without binding: nothing is written to either store, no driver
    listener is registered, and the four driver events are dropped from
    then on. *)
Theorem driver_connection_store_failure st rest :
  userRole (sock st) = "driver" →
  listeners (sock st) = [] →
  pg_rejects st = true :: rest →
  let st' := run setupLocationSocket st in
  emitted st st' = [error_reply "Connection failed"] ∧
  listeners (sock st') = ["disconnect"] ∧
  driverId (sock st') = driverId (sock st) ∧
  pg st' = pg st ∧ redis st' = redis st ∧ redis_rejects st' = redis_rejects st ∧
  ∀ e st2, sock st2 = sock st' → driver_event e → run (receive e) st2 = st2.
Proof.
  intros Hrole Hl Hp. cbv zeta.
  assert (Hd : String.eqb (userRole (sock st)) "driver" = true) by (by rewrite Hrole).
  assert (Hpa : String.eqb (userRole (sock st)) "passenger" = false) by (by rewrite Hrole).
  assert (Had : String.eqb (userRole (sock st)) "admin" = false) by (by rewrite Hrole).
  assert (Hrun : run handleDriverConnection st =
                 with_outbox (outbox st ++ [error_reply "Connection failed"])
                   (with_pg (pg st) rest st)).
  { unfold handleDriverConnection. run_handler. by rewrite Hp. }
  unfold emitted, run at 1 2 3 4 5 6 7, setupLocationSocket.
  mstep. rewrite Hd, Hpa, Had. cbn [orb].
  rewrite (bind_ok _ _ _ _ _ (handleDriverConnection_ok st)). repeat mstep.
  rewrite Hrun. step_simpl. rewrite Hl, drop_app_length.
  repeat (split; [reflexivity|]).
  intros e st2 Hs He. unfold receive, run, bind, get_socket. rewrite Hs.
  cbn [listeners]. destruct e; try done; reflexivity.
Qed.

Lemma driver_connection_store_failure_witness :
  let st :=
    {| sock := {| socket_id := "sock-1"; userId := "u1"; userRole := "driver";
                  driverId := None; vehicleId := None; tripId := None;
                  rooms := []; listeners := [] |};
       pg := example_db Active; redis := ∅; published := []; outbox := [];
       now := 100; pg_rejects := [true]; redis_rejects := [] |} in
  let st' := run setupLocationSocket st in
  emitted st st' = [error_reply "Connection failed"] ∧
  run (receive start_trip) st' = st'.
Proof.
  cbv zeta.
  match goal with
  | |- context [run setupLocationSocket ?s] =>
      destruct (driver_connection_store_failure s [] eq_refl eq_refl eq_refl)
        as (Hout & _ & _ & _ & _ & _ & Hev)
  end.
  split; [exact Hout|]. exact (Hev start_trip _ eq_refl I).
Defined.

(** X10.  A connection whose role is not driver causes no statement and no
    store command when it is set up, gets no driver binding, joins the
    observers' group if it is a passenger, that group and the admin group if
    it is an admin, and no group otherwise; and the four driver events are
    dropped on it: only a driver connection can record fixes or drive a
    trip. *)
Theorem observers_cannot_drive st :
  userRole (sock st) ≠ "driver" →
  listeners (sock st) = [] → rooms (sock st) = [] →
  let st' := run setupLocationSocket st in
  pg st' = pg st ∧ redis st' = redis st ∧ outbox st' = outbox st ∧
  pg_rejects st' = pg_rejects st ∧ redis_rejects st' = redis_rejects st ∧
  driverId (sock st') = driverId (sock st) ∧
  rooms (sock st') =
    (if String.eqb (userRole (sock st)) "passenger" then ["passengers"]
     else if String.eqb (userRole (sock st)) "admin" then ["passengers"; "admin"]
     else []) ∧
  ∀ e st2, sock st2 = sock st' → driver_event e → run (receive e) st2 = st2.
Proof.
  intros Hrole Hl Hrooms. cbv zeta.
  assert (Hd : String.eqb (userRole (sock st)) "driver" = false)
    by (by apply String.eqb_neq).
  destruct (String.eqb (userRole (sock st)) "passenger") eqn:Ep;
    destruct (String.eqb (userRole (sock st)) "admin") eqn:Ea.
  { apply String.eqb_eq in Ep. rewrite Ep in Ea. discriminate Ea. }
  all: unfold run at 1 2 3 4 5 6 7 8, setupLocationSocket, handlePassengerConnection.
  all: mstep; rewrite Hd, Ep, Ea; cbn [orb]; repeat mstep.
  all: rewrite ?Ea; repeat mstep.
  all: rewrite ?Hrooms, ?Hl; cbn [bool_decide app].
  all: repeat (split; [reflexivity|]).
  all: intros e st2 Hs He; unfold receive, run, bind, get_socket; rewrite Hs;
       cbn [listeners]; destruct e; try done; reflexivity.
Qed.

Lemma observers_cannot_drive_witness :
  let st :=
    {| sock := {| socket_id := "sock-7"; userId := "u7"; userRole := "admin";
                  driverId := None; vehicleId := None; tripId := None;
                  rooms := []; listeners := [] |};
       pg := example_db Active; redis := ∅; published := []; outbox := [];
       now := 100; pg_rejects := []; redis_rejects := [] |} in
  let st' := run setupLocationSocket st in
  rooms (sock st') = ["passengers"; "admin"] ∧
  run (receive (location_update example_fix)) st' = st' ∧
  run (receive (end_trip example_end)) st' = st'.
Proof.
  cbv zeta.
  match goal with
  | |- context [run setupLocationSocket ?s] =>
      destruct (observers_cannot_drive s ltac:(discriminate) eq_refl eq_refl)
        as (_ & _ & _ & _ & _ & _ & Hrooms & Hev)
  end.
  split; [exact Hrooms|].
  split; [exact (Hev (location_update example_fix) _ eq_refl I)|].
  exact (Hev (end_trip example_end) _ eq_refl I).
Defined.

(** ** Fan-out of a fix *)

Lemma calculateAndEmitETAs_run currentLocation st :
  ∃ st', calculateAndEmitETAs currentLocation st = (Ok tt, st') ∧
    pg st' = pg st ∧ published st' = published st ∧ sock st' = sock st ∧
    outbox st' = outbox st ++
      (if truthy_str (tripId (sock st)) && negb (hd false (pg_rejects st)) &&
          (0 <? length (stopsQuery (tripId (sock st)) (pg st)).1)%nat
       then [ {| dest := ToRoom "passengers"; event := "eta_update";
                 payload := EtaInfo (vehicleId (sock st)) (tripId (sock st))
                              (etaUpdate currentLocation
                                 <$> (stopsQuery (tripId (sock st)) (pg st)).1) |} ]
       else []).
Proof.
  unfold calculateAndEmitETAs. run_handler.
  destruct (truthy_str (tripId (sock st))) eqn:Ht; state_simpl.
  { destruct (pg_rejects st) as [|[] rej] eqn:Hrej; state_simpl.
    2:{ eexists. split; [reflexivity|]. state_simpl. by rewrite app_nil_r. }
    all: destruct (0 <? length (stopsQuery (tripId (sock st)) (pg st)).1)%nat eqn:Hn.
    all: try (eexists; split; [reflexivity|]; state_simpl; by rewrite app_nil_r).
    all: match goal with
         | |- context [eta_loop ?s ?c ?rows ?acc ?s0] =>
             destruct (eta_loop_spec s c rows acc s0)
               as (st' & -> & Hs & Hp & Ho & Hpub & Hrj & Hnow & Hkv)
         end.
    all: eexists; split; [reflexivity|]; state_simpl.
    all: rewrite Hp, Hpub, Hs, Ho; state_simpl; done. }
  exists st. by rewrite app_nil_r.
Qed.

Lemma handleLocationUpdate_fan_out st locationData t r :
  truthy_num (latitude locationData) = true →
  truthy_num (longitude locationData) = true →
  truthy_str (vehicleId (sock st)) = true →
  tripId (sock st) = Some t → t ≠ EmptyString →
  trips (pg st) !! t = Some r →
  accepts 3 (pg_rejects st) = true →
  let st' := run (handleLocationUpdate locationData) st in
  let snapshot := fix_snapshot st locationData in
  let rows := (stopsQuery (Some t) (pg st)).1 in
  emitted st st' =
    [ {| dest := ToRoom ("vehicle:" +:+ id_text (vehicleId (sock st)));
         event := "location_update"; payload := LocationInfo snapshot |};
      {| dest := ToRoom ("route:" +:+ route_id r); event := "route_vehicle_update";
         payload := RouteVehicleInfo (route_id r) (vehicleId (sock st)) snapshot |};
      {| dest := ToRoom "admin"; event := "vehicle_location_update";
         payload := LocationInfo snapshot |} ] ++
    (if (0 <? length rows)%nat
     then [ {| dest := ToRoom "passengers"; event := "eta_update";
               payload := EtaInfo (vehicleId (sock st)) (Some t)
                            (etaUpdate (latitude locationData, longitude locationData)
                               <$> rows) |} ]
     else []) ∧
  (accepts 3 (redis_rejects st) = true →
   published st' = published st ++
     [ ("location:" +:+ id_text (vehicleId (sock st)), snapshot);
       ("location:all", snapshot) ]).
Proof.
  intros Hlat Hlon Hv Ht Hne Hr Hacc. cbv zeta.
  unfold emitted, handleLocationUpdate. run_handler.
  rewrite Hlat, Hlon, Hv. state_simpl.
  rewrite Ht, (truthy_str_Some t Hne). state_simpl.
  unfold routeQuery at 1 2 3 4 5 6 7 8.
  destruct (pg_rejects st) as [|[] [|[] [|[] rej]]] eqn:Hrej; try done; state_simpl.
  all: destruct (redis_rejects st) as [|[] [|[] [|[] ?]]]; state_simpl.
  all: unfold locationQuery; state_simpl; cbn [trips with_vehicle_locations snd fst];
    rewrite ?Hr; state_simpl.
  all: match goal with
       | |- context [calculateAndEmitETAs ?c ?s0] =>
           destruct (calculateAndEmitETAs_run c s0)
             as (st' & -> & Hp & Hpub & Hs & Ho)
       end.
  all: state_simpl; rewrite Ho, Hpub; state_simpl.
  all: rewrite Ht, (truthy_str_Some t Hne); state_simpl.
  all: rewrite <- ?app_assoc, ?drop_app_length; cbn [app].
  all: unfold fix_snapshot; rewrite Ht.
  all: split; [reflexivity|]; intros Hk; try discriminate Hk; reflexivity.
Qed.

(** X11.  An accepted fix on a connection with a vehicle and a bound trip
    whose row exists, when the Catalog Store answers the three statements,
    is fanned out in this order and whatever the Session Store answers:
    location_update to the group of the vehicle, route_vehicle_update to
    the group of the route of the trip, vehicle_location_update to the
    admin group, then the ETA batch if there is one.  All three carry the
    same snapshot, nothing is sent back to the driver, and the snapshot is
    published on the channel of the vehicle and on the channel of all
    vehicles when the Session Store takes the commands. *)
Theorem fix_fan_out st locationData t r :
  truthy_num (latitude locationData) = true →
  truthy_num (longitude locationData) = true →
  truthy_str (vehicleId (sock st)) = true →
  tripId (sock st) = Some t → t ≠ EmptyString →
  trips (pg st) !! t = Some r →
  accepts 3 (pg_rejects st) = true →
  let st' := run (handleLocationUpdate locationData) st in
  let snapshot := fix_snapshot st locationData in
  let rows := (stopsQuery (Some t) (pg st)).1 in
  emitted st st' =
    [ {| dest := ToRoom ("vehicle:" +:+ id_text (vehicleId (sock st)));
         event := "location_update"; payload := LocationInfo snapshot |};
      {| dest := ToRoom ("route:" +:+ route_id r); event := "route_vehicle_update";
         payload := RouteVehicleInfo (route_id r) (vehicleId (sock st)) snapshot |};
      {| dest := ToRoom "admin"; event := "vehicle_location_update";
         payload := LocationInfo snapshot |} ] ++
    (if (0 <? length rows)%nat
     then [ {| dest := ToRoom "passengers"; event := "eta_update";
               payload := EtaInfo (vehicleId (sock st)) (Some t)
                            (etaUpdate (latitude locationData, longitude locationData)
                               <$> rows) |} ]
     else []) ∧
  (accepts 3 (redis_rejects st) = true →
   published st' = published st ++
     [ ("location:" +:+ id_text (vehicleId (sock st)), snapshot);
       ("location:all", snapshot) ]).
Proof. exact (handleLocationUpdate_fan_out st locationData t r). Qed.

Lemma fix_fan_out_witness :
  let st := example_state (Some "t1") Active in
  let st' := run (handleLocationUpdate example_fix) st in
  (dest <$> emitted st st') =
    [ToRoom "vehicle:v1"; ToRoom "route:r1"; ToRoom "admin"; ToRoom "passengers"] ∧
  (fst <$> published st') = ["location:v1"; "location:all"].
Proof.
  cbv zeta.
  destruct (fix_fan_out (example_state (Some "t1") Active) example_fix "t1"
              (example_trip "d1" Active)
              eq_refl eq_refl eq_refl eq_refl ltac:(done) eq_refl eq_refl) as (Hout & Hpub).
  rewrite Hout, (Hpub eq_refl). split; reflexivity.
Defined.

(** X12.  When the Catalog Store rejects the insert of a valid fix, the
    driver is answered with the update-failed error and that is all: the
    fix is neither cached nor published nor fanned out to any group, and no
    ETA is computed. *)
Theorem rejected_fix_is_not_fanned_out st locationData rest :
  truthy_num (latitude locationData) = true →
  truthy_num (longitude locationData) = true →
  truthy_str (vehicleId (sock st)) = true →
  pg_rejects st = true :: rest →
  run (handleLocationUpdate locationData) st =
    with_outbox (outbox st ++ [error_reply "Failed to update location"])
      (with_pg (pg st) rest st).
Proof.
  intros Hlat Hlon Hv Hp.
  unfold handleLocationUpdate. run_handler.
  rewrite Hlat, Hlon, Hv. state_simpl. rewrite Hp. reflexivity.
Qed.

Lemma rejected_fix_is_not_fanned_out_witness :
  let st := with_pg (example_db Active) [true] (example_state (Some "t1") Active) in
  let st' := run (handleLocationUpdate example_fix) st in
  emitted st st' = [error_reply "Failed to update location"] ∧
  redis st' = redis st ∧ published st' = [] ∧ vehicle_locations (pg st') = [].
Proof.
  cbv zeta.
  rewrite (rejected_fix_is_not_fanned_out
             (with_pg (example_db Active) [true] (example_state (Some "t1") Active))
             example_fix [] eq_refl eq_refl eq_refl eq_refl).
  repeat split.
Defined.

(** X13.  The durable write is not undone by a later failure: when the
    Catalog Store takes the insert of a fix and then rejects the route
    lookup, the row stays in vehicle_locations, the snapshot stays cached
    and published and has gone to the group of the vehicle, yet the driver
    is told that the update failed, and the admin group and the ETA batch
    are skipped. *)
Theorem fix_kept_when_route_lookup_fails st locationData rest :
  truthy_num (latitude locationData) = true →
  truthy_num (longitude locationData) = true →
  truthy_str (vehicleId (sock st)) = true →
  truthy_str (tripId (sock st)) = true →
  pg_rejects st = false :: true :: rest →
  redis_rejects st = [] →
  let st' := run (handleLocationUpdate locationData) st in
  let snapshot := fix_snapshot st locationData in
  vehicle_locations (pg st') = vehicle_locations (pg st) ++ [fix_row st locationData] ∧
  redis st' !! vehicle_location_key (vehicleId (sock st))
    = Some (300%Z, CachedLocation snapshot) ∧
  published st' = published st ++
    [ ("location:" +:+ id_text (vehicleId (sock st)), snapshot);
      ("location:all", snapshot) ] ∧
  emitted st st' =
    [ {| dest := ToRoom ("vehicle:" +:+ id_text (vehicleId (sock st)));
         event := "location_update"; payload := LocationInfo snapshot |};
      error_reply "Failed to update location" ].
Proof.
  intros Hlat Hlon Hv Ht Hp Hk. cbv zeta.
  unfold emitted, handleLocationUpdate. run_handler.
  rewrite Hlat, Hlon, Hv. state_simpl.
  rewrite Hp. state_simpl. rewrite Hk. state_simpl.
  rewrite Ht. state_simpl.
  rewrite <- ?app_assoc, ?drop_app_length.
  repeat split. by rewrite lookup_insert_eq.
Qed.

Lemma fix_kept_when_route_lookup_fails_witness :
  let st := with_pg (example_db Active) [false; true] (example_state (Some "t1") Active) in
  let st' := run (handleLocationUpdate example_fix) st in
  length (vehicle_locations (pg st')) = 1%nat ∧
  (event <$> emitted st st') = ["location_update"; "error"].
Proof.
  cbv zeta.
  destruct (fix_kept_when_route_lookup_fails
              (with_pg (example_db Active) [false; true] (example_state (Some "t1") Active))
              example_fix [] eq_refl eq_refl eq_refl eq_refl eq_refl eq_refl)
    as (Hrow & _ & _ & Hout).
  rewrite Hrow, Hout. split; reflexivity.
Defined.

(** ** Recording a stop visit *)

Lemma handlePassengerCountUpdate_with_stop st countData t s :
  tripId (sock st) = Some t → t ≠ EmptyString →
  stopId countData = Some s → s ≠ EmptyString →
  accepts 2 (pg_rejects st) = true →
  let st' := run (handlePassengerCountUpdate countData) st in
  sock st' = sock st ∧
  pg st' = (tripStopQuery (Some t) (Some s) (count countData) (now st)
              (passengerCountQuery (count countData) (Some t) (now st) (pg st)).2).2.
Proof.
  intros Ht Hne Hs Hsne Hacc. cbv zeta.
  unfold handlePassengerCountUpdate. run_handler.
  rewrite Ht, Hs, (truthy_str_Some t Hne), (truthy_str_Some s Hsne). state_simpl.
  destruct (pg_rejects st) as [|[] [|[] ?]]; try done; state_simpl; done.
Qed.

(** X14.  Recording a boarding at a stop moves the ETA window past it: once
    a passenger_count_update with a stop id has gone through, the rows of
    the next ETA batches of the trip all have a stop order above the order
    of that stop, so neither the stop nor any earlier one is listed
    again. *)
Theorem recorded_stop_leaves_eta_window st countData t s rs :
  tripId (sock st) = Some t → t ≠ EmptyString →
  stopId countData = Some s → s ≠ EmptyString →
  rs ∈ route_stops (pg st) → rs_bus_stop_id rs = s →
  accepts 2 (pg_rejects st) = true →
  let st' := run (handlePassengerCountUpdate countData) st in
  ∀ row, row ∈ (stopsQuery (tripId (sock st')) (pg st')).1 →
         (stop_order rs < s_stop_order row)%Z.
Proof.
  intros Ht Hne Hs Hsne Hrs Hrss Hacc. cbv zeta.
  destruct (handlePassengerCountUpdate_with_stop st countData t s Ht Hne Hs Hsne Hacc)
    as (Hsock & Hpg).
  rewrite Hsock, Ht, Hpg. intros row Hrow.
  apply stopsQuery_elem in Hrow as (r & _ & Hrow).
  apply candidate_rows_elem in Hrow as (_ & _ & _ & _ & _ & _ & _ & Hlt).
  destruct (tripStopQuery_row t s (count countData) (now st)
              (passengerCountQuery (count countData) (Some t) (now st) (pg st)).2)
    as (ts & Hts & Harr & _).
  eapply Z.le_lt_trans; [|exact Hlt].
  apply (arrived_threshold_upper t _ rs ts).
  - unfold tripStopQuery, passengerCountQuery. exact Hrs.
  - rewrite Hrss. exact Hts.
  - rewrite Harr. eauto.
Qed.

Lemma recorded_stop_leaves_eta_window_witness :
  let st := example_state (Some "t1") Active in
  let st' := run (handlePassengerCountUpdate {| count := Some (9 # 1); stopId := Some "s2" |}) st in
  (s_id <$> (stopsQuery (tripId (sock st)) (pg st)).1) = ["s1"; "s2"; "s3"] ∧
  (s_id <$> (stopsQuery (tripId (sock st')) (pg st')).1) = ["s3"] ∧
  ∀ row, row ∈ (stopsQuery (tripId (sock st')) (pg st')).1 → (2 < s_stop_order row)%Z.
Proof.
  cbv zeta. split; [reflexivity|]. split; [reflexivity|].
  refine (recorded_stop_leaves_eta_window (example_state (Some "t1") Active)
            {| count := Some (9 # 1); stopId := Some "s2" |} "t1" "s2"
            {| rs_route_id := "r1"; rs_bus_stop_id := "s2"; stop_order := 2 |}
            eq_refl _ eq_refl _ _ eq_refl eq_refl); [done|done|].
  vm_compute. left.
Defined.

(** X15.  A passenger_count_update with a stop id touches two rows only:
    the row of the bound trip and the TripStop row of (trip, stop).  Every
    other trip and every other TripStop row stay as they were, and when the
    TripStop row was already there its scheduled arrival, its departure and
    its alighted count are kept. *)
Theorem passenger_count_touches_two_rows st countData t s :
  tripId (sock st) = Some t → t ≠ EmptyString →
  stopId countData = Some s → s ≠ EmptyString →
  accepts 2 (pg_rejects st) = true →
  let st' := run (handlePassengerCountUpdate countData) st in
  (∀ t', t' ≠ t → trips (pg st') !! t' = trips (pg st) !! t') ∧
  (∀ k, k ≠ (t, s) → trip_stops (pg st') !! k = trip_stops (pg st) !! k) ∧
  (∀ old, trip_stops (pg st) !! (t, s) = Some old →
     ∃ row, trip_stops (pg st') !! (t, s) = Some row ∧
            scheduled_arrival row = scheduled_arrival old ∧
            actual_departure row = actual_departure old ∧
            passengers_alighted row = passengers_alighted old) ∧
  drivers (pg st') = drivers (pg st) ∧
  vehicle_locations (pg st') = vehicle_locations (pg st).
Proof.
  intros Ht Hne Hs Hsne Hacc. cbv zeta.
  destruct (handlePassengerCountUpdate_with_stop st countData t s Ht Hne Hs Hsne Hacc)
    as (_ & ->).
  unfold tripStopQuery, passengerCountQuery.
  cbn [snd trips trip_stops drivers vehicle_locations with_trips with_trip_stops].
  split; [intros t' Ht'; by rewrite lookup_alter_ne|].
  split; [intros k Hk; by rewrite lookup_insert_ne|].
  split; [|done].
  intros old Hold. rewrite lookup_insert_eq, Hold. eexists. by split.
Qed.

Lemma passenger_count_touches_two_rows_witness :
  let st := example_state (Some "t1") Active in
  let st' := run (handlePassengerCountUpdate {| count := Some (9 # 1); stopId := Some "s2" |}) st in
  trips (pg st') !! "t2" = trips (pg st) !! "t2" ∧
  trip_stops (pg st') !! ("t1", "s1") = None.
Proof.
  cbv zeta.
  destruct (passenger_count_touches_two_rows (example_state (Some "t1") Active)
              {| count := Some (9 # 1); stopId := Some "s2" |} "t1" "s2"
              eq_refl ltac:(done) eq_refl ltac:(done) eq_refl) as (H1 & H2 & _).
  split; [by apply H1|]. by rewrite H2.
Defined.

(** ** Subscriptions *)

Lemma socket_join_member room st : room ∈ rooms (sock (run (socket_join room) st)).
Proof.
  unfold run, socket_join. cbn.
  case_bool_decide as H; [exact H|]. apply elem_of_app. right. by left.
Qed.

Lemma socket_leave_not_member room st : room ∉ rooms (sock (run (socket_leave room) st)).
Proof.
  unfold run, socket_leave. cbn. rewrite list_elem_of_filter. by intros [? _].
Qed.

(** X16.  The group an observer joins by subscribe_route or
    subscribe_vehicle is the group the fan-out of a fix addresses: after
    subscribe_route with the route of a trip, the route_vehicle_update of an
    accepted fix on that trip goes to a group the observer is in, and after
    subscribe_vehicle with the vehicle its location_update does; after
    unsubscribe_route the observer is no longer in the group of the
    route.  Subscribing to a route touches no store and sends nothing. *)
Theorem subscriber_is_addressed so sd locationData t r v :
  "subscribe_route" ∈ listeners (sock so) →
  "subscribe_vehicle" ∈ listeners (sock so) →
  "unsubscribe_route" ∈ listeners (sock so) →
  truthy_num (latitude locationData) = true →
  truthy_num (longitude locationData) = true →
  vehicleId (sock sd) = Some v → v ≠ EmptyString →
  tripId (sock sd) = Some t → t ≠ EmptyString →
  trips (pg sd) !! t = Some r →
  accepts 3 (pg_rejects sd) = true →
  let out := emitted sd (run (handleLocationUpdate locationData) sd) in
  (∃ e room, e ∈ out ∧ event e = "route_vehicle_update" ∧ dest e = ToRoom room ∧
     room ∈ rooms (sock (run (receive (subscribe_route (route_id r))) so)) ∧
     room ∉ rooms (sock (run (receive (unsubscribe_route (route_id r)))
                           (run (receive (subscribe_route (route_id r))) so)))) ∧
  (∃ e room, e ∈ out ∧ event e = "location_update" ∧ dest e = ToRoom room ∧
     room ∈ rooms (sock (run (receive (subscribe_vehicle v)) so))) ∧
  pg (run (receive (subscribe_route (route_id r))) so) = pg so ∧
  redis (run (receive (subscribe_route (route_id r))) so) = redis so ∧
  outbox (run (receive (subscribe_route (route_id r))) so) = outbox so.
Proof.
  intros Hsr Hsv Hur Hlat Hlon Hv Hvne Ht Hne Hr Hacc. cbv zeta.
  destruct (handleLocationUpdate_fan_out sd locationData t r Hlat Hlon) as (Hout & _);
    try done.
  { rewrite Hv. by apply truthy_str_Some. }
  rewrite Hout, Hv. cbn [id_text default].
  assert (Hrecv : ∀ e st, event_name e ∈ listeners (sock st) →
                          run (receive e) st = run (listener e) st).
  { intros e st He. unfold receive, run, bind, get_socket.
    by rewrite (bool_decide_eq_true_2 _ He). }
  rewrite (Hrecv (subscribe_route (route_id r)) so Hsr).
  rewrite (Hrecv (subscribe_vehicle v) so Hsv).
  rewrite (Hrecv (unsubscribe_route (route_id r))) by exact Hur.
  cbn [listener].
  split; [|split; [|done]].
  - eexists _, _. split; [right; left|]. cbn [event dest].
    do 2 (split; [reflexivity|]).
    split; [apply socket_join_member|apply socket_leave_not_member].
  - eexists _, _. split; [left|]. cbn [event dest].
    do 2 (split; [reflexivity|]). apply socket_join_member.
Qed.

Lemma subscriber_is_addressed_witness :
  let so := example_observer in
  let sd := example_state (Some "t1") Active in
  ∃ e room, e ∈ emitted sd (run (handleLocationUpdate example_fix) sd) ∧
            event e = "route_vehicle_update" ∧ dest e = ToRoom room ∧
            room ∈ rooms (sock (run (receive (subscribe_route "r1")) so)).
Proof.
  cbv zeta.
  destruct (subscriber_is_addressed example_observer
              (example_state (Some "t1") Active) example_fix "t1"
              (example_trip "d1" Active) "v1")
    as ((e & room & He & Hev & Hd & Hin & _) & _);
    [by do 0 right; left|by do 1 right; left|by do 2 right; left
    |reflexivity|reflexivity|reflexivity|done|reflexivity|done|reflexivity|reflexivity|].
  exists e, room. repeat split; assumption.
Defined.
(** ** Symmetry and monotonicity of the estimator *)

Section Estimator.
#[local] Open Scope R_scope.

Lemma sin_half_sqr x : sin (x / 2) * sin (x / 2) = hav x.
Proof.
  unfold hav. replace x with (2 * (x / 2)) at 3 by field.
  rewrite cos_2a_sin. field.
Qed.

Lemma haversine_a_hav lat1 lon1 lat2 lon2 :
  haversine_a lat1 lon1 lat2 lon2 =
  hav (rad lat2 - rad lat1) +
  cos (rad lat1) * cos (rad lat2) * hav (rad lon2 - rad lon1).
Proof.
  unfold haversine_a; cbv zeta.
  rewrite Rmult_assoc, !sin_half_sqr. unfold rad.
  f_equal; [f_equal; field | f_equal; f_equal; field].
Qed.

Lemma hav_opp x : hav (- x) = hav x.
Proof. unfold hav. by rewrite cos_neg. Qed.

Lemma haversine_a_sym lat1 lon1 lat2 lon2 :
  haversine_a lat1 lon1 lat2 lon2 = haversine_a lat2 lon2 lat1 lon1.
Proof.
  rewrite !haversine_a_hav.
  replace (rad lat1 - rad lat2) with (- (rad lat2 - rad lat1)) by ring.
  replace (rad lon1 - rad lon2) with (- (rad lon2 - rad lon1)) by ring.
  rewrite !hav_opp. ring.
Qed.

Lemma Int_part_le x y : x <= y → (Int_part x <= Int_part y)%Z.
Proof.
  intros Hxy.
  destruct (base_Int_part x) as [Hx1 Hx2], (base_Int_part y) as [Hy1 Hy2].
  destruct (Z_le_gt_dec (Int_part x) (Int_part y)) as [|Hgt]; [done|].
  assert (Hz : (Int_part y + 1 <= Int_part x)%Z) by lia.
  apply IZR_le in Hz. rewrite plus_IZR in Hz. lra.
Qed.

Lemma Math_round_le x y : x <= y → (Math_round x <= Math_round y)%Z.
Proof. intros H. apply Int_part_le. lra. Qed.

(** X17.  The distance of the estimator does not depend on the direction:
    from the fix to the stop it is what it is from the stop to the fix. *)
Theorem distance_symmetric lat1 lon1 lat2 lon2 :
  calculateDistance lat1 lon1 lat2 lon2 = calculateDistance lat2 lon2 lat1 lon1.
Proof. unfold calculateDistance; cbv zeta. by rewrite haversine_a_sym. Qed.

(** X19.  Both reported numbers are monotone in the distance: of two stops
    the farther one never gets the smaller ETA nor the smaller reported
    distance. *)
Theorem farther_stop_never_sooner d1 d2 :
  d1 <= d2 →
  (etaMinutes d1 <= etaMinutes d2)%Z ∧ reportedDistance d1 <= reportedDistance d2.
Proof.
  intros H. split.
  - unfold etaMinutes, averageSpeed. apply Math_round_le. lra.
  - unfold reportedDistance.
    assert (IZR (Math_round (d1 * 100)) <= IZR (Math_round (d2 * 100)))
      by (apply IZR_le, Math_round_le; lra).
    lra.
Qed.

Lemma farther_stop_never_sooner_witness :
  1 <= 2 ∧ (etaMinutes 1 <= etaMinutes 2)%Z ∧ reportedDistance 1 <= reportedDistance 2.
Proof. split; [lra|]. apply (farther_stop_never_sooner 1 2). lra. Defined.

End Estimator.
(** ** Reading the cache back *)

(** X21.  The realtime endpoint of a vehicle serves the fix the hub cached
    last: after a valid location_update from the connection of vehicle v
    whose insert the Catalog Store took and whose first command the Session
    Store took, a request for v on the store as the handler left it is
    answered with the snapshot of that fix, whatever became of the rest of
    the pipeline; and when the Session Store fails the read, the answer is
    the 404 of a missing entry, not a 500. *)
Theorem realtime_location_serves_last_fix st locationData v st2 :
  truthy_num (latitude locationData) = true →
  truthy_num (longitude locationData) = true →
  vehicleId (sock st) = Some v → v ≠ EmptyString →
  hd false (pg_rejects st) = false → hd false (redis_rejects st) = false →
  redis st2 = redis (run (handleLocationUpdate locationData) st) →
  (realtimeVehicleLocation v st2).1 =
    Ok (if hd false (redis_rejects st2)
        then ErrorStatus 404 "No cached location for vehicle"
        else LocationFound (CachedLocation (fix_snapshot st locationData))).
Proof.
  intros Hlat Hlon Hv Hne Hpg Hr Hredis.
  assert (Hvt : truthy_str (vehicleId (sock st)) = true)
    by (rewrite Hv; by apply truthy_str_Some).
  destruct (handleLocationUpdate_accepted st locationData Hlat Hlon Hvt Hpg) as (_ & Hk).
  specialize (Hk Hr). rewrite Hv in Hk.
  unfold realtimeVehicleLocation, try_catch_response, getCachedVehicleLocation,
    redis_get, bind, ret.
  destruct (redis_rejects st2) as [|[] ?]; cbn [hd fst snd]; [|done|].
  all: by rewrite Hredis, Hk.
Qed.

Lemma realtime_location_serves_last_fix_witness :
  let st := example_state (Some "t1") Active in
  let st2 := with_redis (redis (run (handleLocationUpdate example_fix) st)) [] [] st in
  (realtimeVehicleLocation "v1" st2).1 =
    Ok (LocationFound (CachedLocation (fix_snapshot st example_fix))).
Proof.
  cbv zeta.
  exact (realtime_location_serves_last_fix (example_state (Some "t1") Active)
           example_fix "v1"
           (with_redis (redis (run (handleLocationUpdate example_fix)
                                 (example_state (Some "t1") Active))) [] []
              (example_state (Some "t1") Active))
           eq_refl eq_refl eq_refl ltac:(done) eq_refl eq_refl eq_refl).
Defined.
(** ** Acknowledgement of a start *)

(** X22.  The acknowledgement of a start is sound: a connection that was
    answered trip_started has a bound trip whose row is a trip of the
    calling driver; that row is now active with the time of the statement
    as its start time, no other trip, no driver and no vehicle has changed,
    the connection keeps its bindings, and besides the acknowledgement one
    event has gone out, to the group of the route of the trip. *)
Theorem trip_started_is_sound st :
  let st1 := run handleTripStart st in
  acknowledged "trip_started" st st1 = true →
  ∃ t r,
    tripId (sock st) = Some t ∧ trips (pg st) !! t = Some r ∧
    driverId (sock st) = Some (driver_id r) ∧
    trips (pg st1) !! t = Some (started_row r (now st)) ∧
    (∀ t', t' ≠ t → trips (pg st1) !! t' = trips (pg st) !! t') ∧
    drivers (pg st1) = drivers (pg st) ∧ vehicles (pg st1) = vehicles (pg st) ∧
    sock st1 = sock st ∧
    (dest <$> emitted st st1) = [ToSender; ToRoom ("route:" +:+ route_id r)].
Proof.
  cbv zeta. intros Hack.
  destruct (handleTripStart_acknowledged st Hack)
    as (t & r & _ & Ho & _ & Hpg & _ & Hsock & _ & Hout).
  destruct (owned_trip_inv _ _ _ _ _ Ho) as (Ht & Hd & Hr).
  exists t, r. rewrite Hpg, Hout. cbn [trips drivers vehicles with_trips].
  do 3 (split; [assumption|]).
  split; [apply lookup_insert_eq|].
  split; [intros t' Hne; by apply lookup_insert_ne|].
  done.
Qed.

Lemma trip_started_is_sound_witness :
  let st := example_state (Some "t1") Scheduled in
  let st1 := run handleTripStart st in
  acknowledged "trip_started" st st1 = true ∧
  status <$> trips (pg st1) !! "t1" = Some Active ∧
  (dest <$> emitted st st1) = [ToSender; ToRoom "route:r1"].
Proof.
  cbv zeta. split; [reflexivity|].
  destruct (trip_started_is_sound (example_state (Some "t1") Scheduled) eq_refl)
    as (t & r & Ht & Hr & _ & Hrow & _ & _ & _ & _ & Hout).
  injection Ht as <-. injection Hr as <-.
  rewrite Hrow, Hout. split; reflexivity.
Defined.
(** ** Failures after the first write *)

(** X23.  A failure of the ETA estimator is silent: when the Catalog Store
    takes the insert of a fix and the route lookup and then rejects the
    lookup of the next stops, the fix is stored and fanned out to the group
    of the vehicle, the group of the route and the admin group as usual, no
    ETA batch goes out, and the driver is not told of any failure. *)
Theorem eta_failure_is_silent st locationData t r rest :
  truthy_num (latitude locationData) = true →
  truthy_num (longitude locationData) = true →
  truthy_str (vehicleId (sock st)) = true →
  tripId (sock st) = Some t → t ≠ EmptyString →
  trips (pg st) !! t = Some r →
  pg_rejects st = false :: false :: true :: rest →
  let st' := run (handleLocationUpdate locationData) st in
  let snapshot := fix_snapshot st locationData in
  vehicle_locations (pg st') = vehicle_locations (pg st) ++ [fix_row st locationData] ∧
  emitted st st' =
    [ {| dest := ToRoom ("vehicle:" +:+ id_text (vehicleId (sock st)));
         event := "location_update"; payload := LocationInfo snapshot |};
      {| dest := ToRoom ("route:" +:+ route_id r); event := "route_vehicle_update";
         payload := RouteVehicleInfo (route_id r) (vehicleId (sock st)) snapshot |};
      {| dest := ToRoom "admin"; event := "vehicle_location_update";
         payload := LocationInfo snapshot |} ].
Proof.
  intros Hlat Hlon Hv Ht Hne Hr Hrej. cbv zeta.
  unfold emitted, handleLocationUpdate. run_handler.
  rewrite Hlat, Hlon, Hv. state_simpl.
  rewrite Ht, (truthy_str_Some t Hne). state_simpl.
  unfold routeQuery at 1 2 3 4 5 6 7 8.
  rewrite Hrej. state_simpl.
  destruct (redis_rejects st) as [|[] [|[] [|[] ?]]]; state_simpl.
  all: unfold locationQuery; state_simpl; cbn [trips with_vehicle_locations snd fst];
    rewrite ?Hr; state_simpl.
  all: match goal with
       | |- context [calculateAndEmitETAs ?c ?s0] =>
           destruct (calculateAndEmitETAs_run c s0)
             as (st' & -> & Hp & Hpub & Hs & Ho)
       end.
  all: state_simpl; rewrite Ho, Hp; state_simpl.
  all: rewrite Ht, (truthy_str_Some t Hne); state_simpl.
  all: rewrite app_nil_r, <- ?app_assoc, ?drop_app_length; cbn [app].
  all: unfold fix_snapshot, fix_row; rewrite Ht.
  all: split; reflexivity.
Qed.

Lemma eta_failure_is_silent_witness :
  let st := with_pg (example_db Active) [false; false; true]
              (example_state (Some "t1") Active) in
  let st' := run (handleLocationUpdate example_fix) st in
  length (vehicle_locations (pg st')) = 1%nat ∧
  (event <$> emitted st st') =
    ["location_update"; "route_vehicle_update"; "vehicle_location_update"].
Proof.
  cbv zeta.
  destruct (eta_failure_is_silent
              (with_pg (example_db Active) [false; false; true]
                 (example_state (Some "t1") Active))
              example_fix "t1" (example_trip "d1" Active) []
              eq_refl eq_refl eq_refl eq_refl ltac:(done) eq_refl eq_refl)
    as (Hrow & Hout).
  rewrite Hrow, Hout. split; reflexivity.
Defined.

(** X24.  The two statements of a passenger_count_update are not one
    transaction: when the Catalog Store rejects the first statement nothing
    changes; when it takes the UPDATE of the trip and rejects the upsert of
    the stop, the new count stays on the trip while no TripStop row is
    written.  In both cases the driver gets the update-failed error and
    nothing is sent to the group of the vehicle. *)
Theorem passenger_count_half_done st countData t s rest :
  tripId (sock st) = Some t → t ≠ EmptyString →
  stopId countData = Some s → s ≠ EmptyString →
  let st' := run (handlePassengerCountUpdate countData) st in
  (pg_rejects st = true :: rest →
   pg st' = pg st ∧
   emitted st st' = [error_reply "Failed to update passenger count"]) ∧
  (pg_rejects st = false :: true :: rest →
   pg st' = (passengerCountQuery (count countData) (Some t) (now st) (pg st)).2 ∧
   trip_stops (pg st') = trip_stops (pg st) ∧
   (∀ r, trips (pg st) !! t = Some r →
      passenger_count <$> trips (pg st') !! t = Some (count countData)) ∧
   emitted st st' = [error_reply "Failed to update passenger count"]).
Proof.
  intros Ht Hne Hs Hsne. cbv zeta.
  split; intros Hrej.
  all: unfold emitted, handlePassengerCountUpdate; run_handler.
  all: rewrite Ht, ?Hs, (truthy_str_Some t Hne), ?(truthy_str_Some s Hsne); state_simpl.
  all: rewrite Hrej; state_simpl.
  all: rewrite ?Hs, ?(truthy_str_Some s Hsne); state_simpl.
  all: rewrite ?drop_app_length.
  - done.
  - split; [reflexivity|]. unfold passengerCountQuery.
    cbn [snd trips trip_stops with_trips].
    split; [reflexivity|]. split; [|reflexivity].
    intros r Hr. by rewrite lookup_alter_eq, Hr.
Qed.

Lemma passenger_count_half_done_witness :
  let st := with_pg (example_db Active) [false; true]
              (example_state (Some "t1") Active) in
  let st' := run (handlePassengerCountUpdate
                    {| count := Some (9 # 1); stopId := Some "s2" |}) st in
  passenger_count <$> trips (pg st') !! "t1" = Some (Some (9 # 1)) ∧
  trip_stops (pg st') = trip_stops (pg st) ∧
  emitted st st' = [error_reply "Failed to update passenger count"].
Proof.
  cbv zeta.
  destruct (passenger_count_half_done
              (with_pg (example_db Active) [false; true]
                 (example_state (Some "t1") Active))
              {| count := Some (9 # 1); stopId := Some "s2" |} "t1" "s2" []
              eq_refl ltac:(done) eq_refl ltac:(done)) as (_ & H).
  destruct (H eq_refl) as (_ & Hts & Hc & Hout).
  split; [exact (Hc _ eq_refl)|]. split; assumption.
Defined.
